(** * EMAN2 plugin converters: a shallow embedding of [eman2/convert/convert.py]
      and of the conversion step of [eman2/protocols/protocol_refine2d_bispec.py].

    Conventions of the embedding.
    - Python [float] values are modelled by the real numbers [R]: every
      statement below is about exact arithmetic, not about binary64 rounding.
      [numpy.arcsin] is [asin], [numpy.pi] is [PI], and [numpy.rad2deg] /
      [numpy.deg2rad] multiply by [180/PI] / [PI/180].
    - Python [int] values are modelled by [Z].
    - A Python [str] is modelled by [string]; a character stands for the code
      point of its number, so a string holds code points below 256.
    - A function that may raise returns a [result]; the exception carries its
      Python class (and message where the source gives one).
    - Objects of the host application and routines of external libraries
      (numpy.linalg, pwem.convert.transformations, pyworkflow.utils) are not
      part of this repository; they enter as fields of an interface class. *)

From Stdlib Require Import Reals Lra ZArith Lia List String Ascii Bool.
From stdpp Require Import base gmap strings pretty sorting.
Import ListNotations.

Open Scope Z_scope.

(* ===================================================================== *)
(** * Part I. Definitions                                                 *)
(* ===================================================================== *)

(** ** Exceptions and results *)

Inductive exn : Type :=
| KeyError (key : string)
| IndexError
| TypeError
| ValueError
| AttributeError
| Exception (msg : string).

Inductive result (A : Type) : Type :=
| Ok (a : A)
| Raise (e : exn).

Arguments Ok {A} a.
Arguments Raise {A} e.

#[global] Instance result_ret : MRet result := fun A a => Ok a.

#[global] Instance result_bind : MBind result := fun A B k r =>
  match r with
  | Ok a => k a
  | Raise e => Raise e
  end.

(** ** Comparisons on floats, as booleans *)

Definition Rltb (x y : R) : bool := if Rlt_dec x y then true else false.
Definition Rleb (x y : R) : bool := if Rle_dec x y then true else false.
Definition Rgtb (x y : R) : bool := Rltb y x.
Definition Reqb (x y : R) : bool := if Req_dec_T x y then true else false.

Definition rad2deg (x : R) : R := (x * (180 / PI))%R.
Definition deg2rad (x : R) : R := (x * (PI / 180))%R.

(** ** [calculatePhaseShift] (convert.py, lines 438-448) *)

Definition calculatePhaseShift (ampcont : R) : R :=
  let PhaseShift :=
    if Rltb (-100) ampcont && Rleb ampcont 100 then
      asin (ampcont / 100)
    else if Rgtb ampcont 100 then
      (PI - asin (2 - ampcont / 100))%R
    else
      (- PI - asin (-2 - ampcont / 100))%R in
  rad2deg PhaseShift.

(** ** Values loaded by [json.load] *)

#[warnings="-register-all"]
Inductive json : Type :=
| JNull
| JBool (b : bool)
| JInt (z : Z)
| JFloat (r : R)
| JStr (s : string)
| JArr (l : list json)
| JObj (l : list (string * json)).

(** [bool(v)]: [None], [False], zero, and empty strings, lists and dicts are
    false. *)
Definition truthy (v : json) : bool :=
  match v with
  | JNull => false
  | JBool b => b
  | JInt z => negb (z =? 0)
  | JFloat r => negb (Reqb r 0)
  | JStr s => negb (String.eqb s "")
  | JArr l => match l with [] => false | _ :: _ => true end
  | JObj l => match l with [] => false | _ :: _ => true end
  end.

(** A dict keeps its items in insertion order; keys of a loaded dict are
    distinct, so the first match is the only one. *)
Fixpoint dict_get (d : list (string * json)) (key : string) : option json :=
  match d with
  | [] => None
  | (k, v) :: d' => if String.eqb k key then Some v else dict_get d' key
  end.

Definition is_str (key : string) (v : json) : bool :=
  match v with
  | JStr s => String.eqb s key
  | _ => false
  end.

(** [key in v] for a [str] key. *)
Definition py_in (key : string) (v : json) : result bool :=
  match v with
  | JObj d => Ok (match dict_get d key with Some _ => true | None => false end)
  | JArr l => Ok (existsb (is_str key) l)
  | JStr s => Ok (match index 0 key s with Some _ => true | None => false end)
  | _ => Raise TypeError
  end.

(** [v[key]] for a [str] key. *)
Definition getitem_key (v : json) (key : string) : result json :=
  match v with
  | JObj d => match dict_get d key with
              | Some x => Ok x
              | None => Raise (KeyError key)
              end
  | _ => Raise TypeError
  end.

(** [v[i]] for a non-negative [int] literal [i]. *)
Definition getitem_idx (v : json) (i : nat) : result json :=
  match v with
  | JArr l => match nth_error l i with
              | Some x => Ok x
              | None => Raise IndexError
              end
  | JStr s => match get i s with
              | Some c => Ok (JStr (String c EmptyString))
              | None => Raise IndexError
              end
  | JObj _ => Raise (KeyError (pretty i))
  | _ => Raise TypeError
  end.

(** ** Collaborators outside the repository *)

(** File system and helpers of [pyworkflow.utils], and [float] on strings. *)
Class Host : Type := {
  loadFile : string -> result json;      (* [json.load(open(fn))] *)
  path_exists : string -> bool;          (* [pwutils.exists] *)
  removeExt : string -> string;          (* [pwutils.removeExt] *)
  str_to_float : string -> option R      (* [float(s)] for a [str] *)
}.

(** The methods of the host's CTF model object that [readCTFModel] calls. *)
Class CTFModelOps (M : Type) : Type := {
  setDefocusU : R -> M -> M;
  setDefocusV : R -> M -> M;
  setDefocusAngle : R -> M -> M;
  setStandardDefocus : R -> R -> R -> M -> M;
  setPsdFile : string -> M -> M;
  setPhaseShift : R -> M -> M
}.

(** Two models of the CTF object: the sequence of calls it received (oldest
    first), and a record of fields written by plain accessors. *)
Inductive ctf_call : Type :=
| CallSetDefocusU (v : R)
| CallSetDefocusV (v : R)
| CallSetDefocusAngle (v : R)
| CallSetStandardDefocus (u v a : R)
| CallSetPsdFile (fn : string)
| CallSetPhaseShift (v : R).

#[global] Instance ctf_call_log : CTFModelOps (list ctf_call) := {
  setDefocusU v log := log ++ [CallSetDefocusU v];
  setDefocusV v log := log ++ [CallSetDefocusV v];
  setDefocusAngle v log := log ++ [CallSetDefocusAngle v];
  setStandardDefocus u v a log := log ++ [CallSetStandardDefocus u v a];
  setPsdFile fn log := log ++ [CallSetPsdFile fn];
  setPhaseShift v log := log ++ [CallSetPhaseShift v]
}.

Record CTFFields : Type := {
  defocusU : option R;
  defocusV : option R;
  defocusAngle : option R;
  psdFile : option string;
  phaseShift : option R
}.

Definition emptyCTF : CTFFields :=
  {| defocusU := None; defocusV := None; defocusAngle := None;
     psdFile := None; phaseShift := None |}.

#[global] Instance ctf_fields : CTFModelOps CTFFields := {
  setDefocusU v m :=
    {| defocusU := Some v; defocusV := defocusV m;
       defocusAngle := defocusAngle m; psdFile := psdFile m;
       phaseShift := phaseShift m |};
  setDefocusV v m :=
    {| defocusU := defocusU m; defocusV := Some v;
       defocusAngle := defocusAngle m; psdFile := psdFile m;
       phaseShift := phaseShift m |};
  setDefocusAngle v m :=
    {| defocusU := defocusU m; defocusV := defocusV m;
       defocusAngle := Some v; psdFile := psdFile m;
       phaseShift := phaseShift m |};
  setStandardDefocus u v a m :=
    {| defocusU := Some u; defocusV := Some v;
       defocusAngle := Some a; psdFile := psdFile m;
       phaseShift := phaseShift m |};
  setPsdFile fn m :=
    {| defocusU := defocusU m; defocusV := defocusV m;
       defocusAngle := defocusAngle m; psdFile := Some fn;
       phaseShift := phaseShift m |};
  setPhaseShift v m :=
    {| defocusU := defocusU m; defocusV := defocusV m;
       defocusAngle := defocusAngle m; psdFile := psdFile m;
       phaseShift := Some v |}
}.

(** [float(v)]. *)
Definition py_float `{Host} (v : json) : result R :=
  match v with
  | JInt z => Ok (IZR z)
  | JFloat r => Ok r
  | JBool b => Ok (if b then 1%R else 0%R)
  | JStr s => match str_to_float s with
              | Some r => Ok r
              | None => Raise ValueError
              end
  | _ => Raise TypeError
  end.

(** ** [loadJson], [setWrongDefocus], [readCTFModel] (convert.py, 49-97) *)

Definition loadJson `{Host} (jsonFn : string) : result json := loadFile jsonFn.

Definition setWrongDefocus `{CTFModelOps M} (ctfModel : M) : M :=
  setDefocusAngle (-999) (setDefocusV (-1) (setDefocusU (-999) ctfModel)).

(** The first statement group of [readCTFModel]: select [keyPos], or mark
    the model when neither key is there. *)
Definition selectKeyPos `{CTFModelOps M} (ctfModel : M) (jsonDict : json)
  : result (json * M) :=
  inFrame ← py_in "ctf_frame" jsonDict;
  if inFrame : bool then
    frame ← getitem_key jsonDict "ctf_frame";
    keyPos ← getitem_idx frame 1;
    mret (keyPos, ctfModel)
  else
    inCtf ← py_in "ctf" jsonDict;
    if inCtf : bool then
      ctf ← getitem_key jsonDict "ctf";
      keyPos ← getitem_idx ctf 0;
      mret (keyPos, ctfModel)
    else
      mret (JNull, setWrongDefocus ctfModel).

Definition readField `{Host} (keyPos : json) (key : string) : result R :=
  v ← getitem_key keyPos key;
  py_float v.

(** Lines 85-90: the PSD image that goes with the metadata file. *)
Definition attachPsdFile `{Host} `{CTFModelOps M} (filename : string)
    (jsonDict : json) (ctfModel : M) : result M :=
  inIm2d ← py_in "ctf_im2d" jsonDict;
  if inIm2d : bool then
    let fnBase := (removeExt filename ++ "_jsonimg")%string in
    let psdFile := ("1@" ++ fnBase ++ ".hdf")%string in
    if path_exists psdFile then mret (setPsdFile psdFile ctfModel)
    else mret ctfModel
  else mret ctfModel.

Definition readCTFModel `{Host} `{CTFModelOps M} (ctfModel : M) (filename : string)
  : result M :=
  jsonDict ← loadJson filename;
  sel ← selectKeyPos ctfModel jsonDict;
  let keyPos := fst sel in
  let ctfModel := snd sel in
  if truthy keyPos then
    defocus ← readField keyPos "defocus";
    defocusAngle ← readField keyPos "dfang";
    dfdiff ← readField keyPos "dfdiff";
    ampcont ← readField keyPos "ampcont";
    let defocusU := (10000 * defocus + 5000 * dfdiff)%R in
    let defocusV := (20000 * defocus - defocusU)%R in
    let ctfPhaseShift := calculatePhaseShift ampcont in
    let ctfModel := setStandardDefocus defocusU defocusV defocusAngle ctfModel in
    ctfModel ← attachPsdFile filename jsonDict ctfModel;
    mret (setPhaseShift ctfPhaseShift ctfModel)
  else
    mret (setPhaseShift 0 ctfModel).

(** ** A host over an explicit list of files, for running examples *)

Fixpoint lookup_file (files : list (string * json)) (fn : string) : option json :=
  match files with
  | [] => None
  | (k, v) :: files' => if String.eqb k fn then Some v else lookup_file files' fn
  end.

Definition files_host (files : list (string * json)) : Host := {|
  loadFile fn := match lookup_file files fn with
                 | Some v => Ok v
                 | None => Raise (Exception "No such file or directory")
                 end;
  path_exists fn := match lookup_file files fn with
                    | Some _ => true
                    | None => false
                    end;
  removeExt fn := fn;
  str_to_float _ := None
|}.

Definition no_ctf_files : list (string * json) :=
  [("mic01_info.json", JObj [("boxes", JArr [])])].

Definition null_record_files : list (string * json) :=
  [("mic01_info.json", JObj [("ctf", JArr [JNull])])].

Definition ctf_record_files : list (string * json) :=
  [("mic01_info.json",
    JObj [("ctf", JArr [JObj [("defocus", JFloat 1); ("dfang", JFloat 45);
                              ("dfdiff", JFloat (2 / 10)); ("ampcont", JInt 0)]])])].

(** Where [readCTFModel] looks for the CTF record of a metadata dict:
    the second element of 'ctf_frame', or else the first element of 'ctf'. *)
Definition ctf_record_at (d : list (string * json)) (rec : list (string * json))
  : Prop :=
  (exists l, dict_get d "ctf_frame" = Some (JArr l) /\
             nth_error l 1 = Some (JObj rec)) \/
  (dict_get d "ctf_frame" = None /\
   exists l, dict_get d "ctf" = Some (JArr l) /\
             nth_error l 0 = Some (JObj rec)).

(** ** Transformation matrices *)

Definition vec3 : Type := (R * R * R)%type.

(** A numpy array of shape (4, 4); [mIJ] is [M[I, J]]. *)
Record mat4 : Type := Mat4 {
  m00 : R; m01 : R; m02 : R; m03 : R;
  m10 : R; m11 : R; m12 : R; m13 : R;
  m20 : R; m21 : R; m22 : R; m23 : R;
  m30 : R; m31 : R; m32 : R; m33 : R
}.

(** Elementwise operations of numpy on a vector of three floats. *)
Definition vmap (f : R -> R) (v : vec3) : vec3 :=
  let '(x, y, z) := v in (f x, f y, f z).

Definition vneg (v : vec3) : vec3 := vmap Ropp v.

(** [M[:3, 3]], and the assignment [M[:3, 3] = v]. *)
Definition column3 (M : mat4) : vec3 := (m03 M, m13 M, m23 M).

Definition set_column3 (M : mat4) (v : vec3) : mat4 :=
  let '(x, y, z) := v in
  Mat4 (m00 M) (m01 M) (m02 M) x
       (m10 M) (m11 M) (m12 M) y
       (m20 M) (m21 M) (m22 M) z
       (m30 M) (m31 M) (m32 M) (m33 M).

(** The routines of [numpy.linalg] and [pwem.convert.transformations] used by
    the converter.  [inv] raises on a singular matrix. *)
Class Transformations : Type := {
  inv : mat4 -> result mat4;
  translation_from_matrix : mat4 -> vec3;
  euler_from_matrix : mat4 -> string -> vec3;
  euler_matrix : R -> R -> R -> string -> mat4
}.

(** ** [geometryFromMatrix], [matrixFromGeometry] (convert.py, 329-357) *)

Definition geometryFromMatrix `{Transformations} (matrix : mat4)
    (inverseTransform : bool) : result (vec3 * vec3) :=
  ms ← (if inverseTransform then
          matrix ← inv matrix;
          mret (matrix, vneg (translation_from_matrix matrix))
        else
          mret (matrix, translation_from_matrix matrix));
  let matrix := fst ms in
  let shifts := snd ms in
  let angles := vneg (vmap rad2deg (euler_from_matrix matrix "szyz")) in
  mret (shifts, angles).

Definition matrixFromGeometry `{Transformations} (shifts angles : vec3)
    (inverseTransform : bool) : result mat4 :=
  let radAngles := vneg (vmap deg2rad angles) in
  let '(a0, a1, a2) := radAngles in
  let M := euler_matrix a0 a1 a2 "szyz" in
  if inverseTransform then
    let M := set_column3 M (vneg shifts) in
    inv M
  else
    let M := set_column3 M shifts in
    mret M.

(** [alignmentToRow] (convert.py, 360-373): the alignment type is ignored. *)
Definition alignmentToRow `{Transformations} (alignment : mat4) : result (vec3 * vec3) :=
  geometryFromMatrix alignment true.

(** What the callers expect of a rigid transform and of the library: the
    last row is [0, 0, 0, 1], and two matrices have the same 3x3 block. *)
Definition affine_last_row (M : mat4) : Prop :=
  m30 M = 0%R /\ m31 M = 0%R /\ m32 M = 0%R /\ m33 M = 1%R.

Definition same_block (A B : mat4) : Prop :=
  m00 A = m00 B /\ m01 A = m01 B /\ m02 A = m02 B /\
  m10 A = m10 B /\ m11 A = m11 B /\ m12 A = m12 B /\
  m20 A = m20 B /\ m21 A = m21 B /\ m22 A = m22 B.

(** Rebuilding the rotation from its own angles gives the rotation back:
    the contract between [euler_from_matrix] and [euler_matrix] at [D]. *)
Definition euler_contract_at `{Transformations} (D : mat4) : Prop :=
  let '(a0, a1, a2) := euler_from_matrix D "szyz" in
  same_block (euler_matrix a0 a1 a2 "szyz") D /\
  affine_last_row (euler_matrix a0 a1 a2 "szyz").

(** The library restricted to pure translations, where it is elementary: the
    inverse negates the translation, all Euler angles are zero and the Euler
    matrix of zero angles is the identity. *)
Definition identity4 : mat4 :=
  Mat4 1 0 0 0
       0 1 0 0
       0 0 1 0
       0 0 0 1.

Definition translation_lib : Transformations := {|
  inv M := Ok (set_column3 M (vneg (column3 M)));
  translation_from_matrix := column3;
  euler_from_matrix _ _ := (0%R, 0%R, 0%R);
  euler_matrix _ _ _ _ := identity4
|}.

Definition shift_1_2_3 : mat4 := set_column3 identity4 (1%R, 2%R, 3%R).

(** As [translation_lib], with Euler angles that are not zero: a quarter
    turn, a half turn and a quarter turn back, in radians. *)
Definition turns_lib : Transformations := {|
  inv M := Ok (set_column3 M (vneg (column3 M)));
  translation_from_matrix := column3;
  euler_from_matrix _ _ := (PI / 2, PI, - (PI / 2))%R;
  euler_matrix _ _ _ _ := identity4
|}.

(** ** Particles and the messages sent to the converter process *)

(** The dictionary of a particle as [getObjDict] returns it, with the keys
    the writers add before sending it. *)
Record ObjDict : Type := {
  _filename : string;
  _index : Z;
  hdfFn : option string;
  _shifts : option vec3;
  _angles : option vec3;
  _itemId : option Z
}.

Definition set_hdfFn (fn : string) (d : ObjDict) : ObjDict :=
  {| _filename := _filename d; _index := _index d; hdfFn := Some fn;
     _shifts := _shifts d; _angles := _angles d; _itemId := _itemId d |}.

Definition set_alignment (shift angles : vec3) (d : ObjDict) : ObjDict :=
  {| _filename := _filename d; _index := _index d; hdfFn := hdfFn d;
     _shifts := Some shift; _angles := Some angles; _itemId := _itemId d |}.

Definition set_itemId (i : Z) (d : ObjDict) : ObjDict :=
  {| _filename := _filename d; _index := _index d; hdfFn := hdfFn d;
     _shifts := _shifts d; _angles := _angles d; _itemId := Some i |}.

Definition set_index (i : Z) (d : ObjDict) : ObjDict :=
  {| _filename := _filename d; _index := i; hdfFn := hdfFn d;
     _shifts := _shifts d; _angles := _angles d; _itemId := _itemId d |}.

Record Coordinate2D : Type := { getMicName : option string }.

Record Particle : Type := {
  getObjDict : ObjDict;
  getObjId : Z;
  getMicId : option Z;
  getCoordinate : option Coordinate2D;
  getTransform : option mat4
}.

Definition getFileName (part : Particle) : string := _filename (getObjDict part).

(** What the writers need from the host's particle set and from
    [pyworkflow.utils]. *)
Class ParticleSetHost : Type := {
  ALIGN_NONE : string;                               (* [emcts.ALIGN_NONE] *)
  iterItemsByMicId : list Particle -> list Particle; (* [iterItems(orderBy=['_micId', 'id'])] *)
  getFiles : list Particle -> list string;           (* [partSet.getFiles()] *)
  path_join : string -> string -> string;            (* [pwutils.join] *)
  removeBaseExt : string -> string;                  (* [pwutils.removeBaseExt] *)
  getExt : string -> string                          (* [pwutils.getExt] *)
}.

(** What a writer did: links created and dictionaries sent to the converter
    process, oldest first.  Starting and killing the process, reading its
    acknowledgement lines and printing are not recorded. *)
Inductive write_event : Type :=
| Linked (fn newFn : string)
| Sent (objDict : ObjDict).

(** [s.split(sep)[0]] *)
Definition before_sep (sep s : string) : string :=
  match index 0 sep s with
  | Some n => substring 0 n s
  | None => s
  end.

(** ["%06d" % z] *)
Fixpoint zeros (n : nat) : string :=
  match n with
  | O => EmptyString
  | S n' => String "0" (zeros n')
  end.

Definition fmt_06d (z : Z) : string :=
  let sign := if z <? 0 then "-"%string else EmptyString in
  let digits := pretty (Z.abs z) in
  (sign ++ zeros (6 - String.length sign - String.length digits) ++ digits)%string.

(** ** The index correction (convert.py, 274-281 and 422-429)

    [st] is the pair of loop variables ([fileName], [a]).  The result is the
    new pair and the value stored under '_index'. *)
Definition correctIndex (st : string * Z) (objDict : ObjDict)
  : (string * Z) * ObjDict :=
  let '(fileName, a) := st in
  let '(fileName, a) :=
    if negb (String.eqb fileName (_filename objDict)) then
      (_filename objDict, if _index objDict =? 0 then 0 else 1)
    else (fileName, a) in
  ((fileName, a), set_index (_index objDict - a) objDict).

(** ** [convertReferences] (convert.py, 409-435) *)

Fixpoint convertReferences_loop (st : string * Z) (refSet : list Particle)
    (outputFn : string) : list write_event :=
  match refSet with
  | [] => []
  | part :: rest =>
      let objDict := getObjDict part in
      let objDict := set_hdfFn outputFn objDict in
      let objDict := set_itemId (getObjId part) objDict in
      let '(st, objDict) := correctIndex st objDict in
      Sent objDict :: convertReferences_loop st rest outputFn
  end.

Definition convertReferences (refSet : list Particle) (outputFn : string)
  : list write_event :=
  convertReferences_loop (EmptyString, 0) refSet outputFn.

(** ** [iterParticlesByMic], [writeSetOfParticles] (convert.py, 224-285, 402-406) *)

Definition iterParticlesByMic `{ParticleSetHost} (partSet : list Particle)
  : list Particle :=
  iterItemsByMicId partSet.

(** Lines 248-272: the dictionary of one particle before the index
    correction. *)
Definition particleDict `{ParticleSetHost} `{Transformations}
    (hasMicName : bool) (path suffix : string) (alignType : option string)
    (part : Particle) : result ObjDict :=
  let micId := getMicId part in
  micName ← (if hasMicName then
               match getCoordinate part with
               | None => Raise AttributeError
               | Some coord =>
                   match getMicName coord with
                   | None => Raise TypeError
                   | Some name => mret (Some (removeBaseExt name))
                   end
               end
             else mret None);
  let objDict := getObjDict part in
  let micId := match micId with
               | Some id => id
               | None => 0
               end in
  let objDict :=
    match micName with
    | Some name =>
        if negb (String.eqb name (pretty micId)) then
          set_hdfFn (path_join path (name ++ suffix ++ ".hdf")) objDict
        else
          set_hdfFn (path_join path ("mic_" ++ fmt_06d micId ++ suffix ++ ".hdf")) objDict
    | None =>
        set_hdfFn (path_join path ("mic_" ++ fmt_06d micId ++ suffix ++ ".hdf")) objDict
    end in
  objDict ← (if negb (bool_decide (alignType = Some ALIGN_NONE)) then
               match getTransform part with
               | None => Raise AttributeError
               | Some matrix =>
                   sa ← alignmentToRow matrix;
                   mret (set_alignment (fst sa) (snd sa) objDict)
               end
             else mret objDict);
  mret (set_itemId (getObjId part) objDict).

(** The loop over the particles: the events so far, and the exception that
    ended the loop, if any. *)
Fixpoint writeSetOfParticles_loop `{ParticleSetHost} `{Transformations}
    (hasMicName : bool) (path suffix : string) (alignType : option string)
    (st : string * Z) (parts : list Particle) : list write_event * option exn :=
  match parts with
  | [] => ([], None)
  | part :: rest =>
      match particleDict hasMicName path suffix alignType part with
      | Raise e => ([], Some e)
      | Ok objDict =>
          let '(st, objDict) := correctIndex st objDict in
          let '(events, err) :=
            writeSetOfParticles_loop hasMicName path suffix alignType st rest in
          (Sent objDict :: events, err)
      end
  end.

(** Line 229-230: is the first item stored in an hdf file? *)
Definition inputIsHdf `{ParticleSetHost} (first : Particle) : bool :=
  let ext := match getExt (getFileName first) with
             | EmptyString => EmptyString
             | String _ tail => tail
             end in
  String.eqb ext "hdf".

Definition writeSetOfParticles `{ParticleSetHost} `{Transformations}
    (partSet : list Particle) (path suffix : string) (alignType : option string)
  : list write_event * option exn :=
  match partSet with
  | [] => ([], Some AttributeError)
  | first :: _ =>
      if inputIsHdf first then
        (map (fun fn =>
                let newFn := (before_sep "__ctf" (removeBaseExt fn) ++ ".hdf")%string in
                Linked fn (path_join path newFn))
             (getFiles partSet), None)
      else
        let hasMicName :=
          match getCoordinate first with
          | Some firstCoord =>
              match getMicName firstCoord with
              | Some name => negb (String.eqb name "")
              | None => false
              end
          | None => false
          end in
        writeSetOfParticles_loop hasMicName path suffix alignType
          (EmptyString, 0) (iterParticlesByMic partSet)
  end.

(** ** Runs of particles of one source file *)

(** The values sent under '_index', in order. *)
Definition sent_indexes (events : list write_event) : list Z :=
  flat_map (fun e => match e with
                     | Sent objDict => [_index objDict]
                     | Linked _ _ => []
                     end) events.

Definition index_of (part : Particle) : Z := _index (getObjDict part).

(** [grouped prev groups]: every group is a non-empty run of particles of
    one source file, and its file differs from the file of the run before it
    ([prev] before the first run). *)
Fixpoint grouped (prev : string) (groups : list (list Particle)) : Prop :=
  match groups with
  | [] => True
  | g :: groups' =>
      match g with
      | [] => False
      | first :: _ =>
          getFileName first <> prev /\
          Forall (fun part => getFileName part = getFileName first) g /\
          grouped (getFileName first) groups'
      end
  end.

(** The offset of a run, decided by its first particle. *)
Definition run_offset (g : list Particle) : Z :=
  match g with
  | first :: _ => if index_of first =? 0 then 0 else 1
  | [] => 0
  end.

Definition normalized_indexes (groups : list (list Particle)) : list Z :=
  concat (map (fun g => map (fun part => index_of part - run_offset g) g) groups).

Definition plain_particle (fn : string) (index : Z) : Particle :=
  {| getObjDict := {| _filename := fn; _index := index; hdfFn := None;
                      _shifts := None; _angles := None; _itemId := None |};
     getObjId := index;
     getMicId := None;
     getCoordinate := None;
     getTransform := None |}.

Definition two_stacks : list (list Particle) :=
  [ [plain_particle "a.mrcs" 1; plain_particle "a.mrcs" 2; plain_particle "a.mrcs" 3];
    [plain_particle "b.mrcs" 0; plain_particle "b.mrcs" 1] ].

Definition plain_set_host : ParticleSetHost := {|
  ALIGN_NONE := "None";
  iterItemsByMicId parts := parts;
  getFiles parts := map getFileName parts;
  path_join a b := (a ++ "/" ++ b)%string;
  removeBaseExt fn := fn;
  getExt fn := ".mrcs"
|}.

(** ** Strings: [in], [str.split()], [int()] *)

Fixpoint contains_char (c : ascii) (s : string) : bool :=
  match s with
  | EmptyString => false
  | String c' s' => Ascii.eqb c' c || contains_char c s'
  end.

(** White space of [str.split()].  A character stands for the code point of
    its number, so a string holds code points below 256; among these the
    white space is 9-13, 28-32, 133 (next line) and 160 (no-break space). *)
Definition is_space (c : ascii) : bool :=
  let n := nat_of_ascii c in
  ((9 <=? n)%nat && (n <=? 13)%nat) || ((28 <=? n)%nat && (n <=? 32)%nat) ||
  (n =? 133)%nat || (n =? 160)%nat.

(** [cur] is the word being read. *)
Fixpoint split_from (cur : string) (s : string) : list string :=
  match s with
  | EmptyString =>
      match cur with
      | EmptyString => []
      | _ => [cur]
      end
  | String c s' =>
      if is_space c then
        match cur with
        | EmptyString => split_from EmptyString s'
        | _ => cur :: split_from EmptyString s'
        end
      else split_from (cur ++ String c EmptyString) s'
  end.

Definition py_split (s : string) : list string := split_from EmptyString s.

Definition digit_of (c : ascii) : option Z :=
  let n := nat_of_ascii c in
  if ((48 <=? n)%nat && (n <=? 57)%nat) then Some (Z.of_nat n - 48) else None.

(** Digits, with single underscores allowed between two digits. *)
Fixpoint parse_digits (after_digit : bool) (acc : Z) (s : string) : option Z :=
  match s with
  | EmptyString => if after_digit then Some acc else None
  | String c s' =>
      match digit_of c with
      | Some d => parse_digits true (10 * acc + d) s'
      | None =>
          if Ascii.eqb c "_" && after_digit then parse_digits false acc s'
          else None
      end
  end.

(** [int(s)] for a word without white space. *)
Definition py_int (s : string) : result Z :=
  let parsed :=
    match s with
    | String c s' =>
        if Ascii.eqb c "+" then parse_digits false 0 s'
        else if Ascii.eqb c "-" then Z.opp <$> parse_digits false 0 s'
        else parse_digits false 0 s
    | EmptyString => parse_digits false 0 s
    end in
  match parsed with
  | Some z => Ok z
  | None => Raise ValueError
  end.

Definition list_item {A : Type} (l : list A) (i : nat) : result A :=
  match nth_error l i with
  | Some x => Ok x
  | None => Raise IndexError
  end.

(** ** [iterLstFile] (convert.py, 319-326)

    The file is given by its lines.  The generator yields the pairs of the
    first component, and ends with the exception of the second, if any. *)
Definition lstItem (line : string) : result (Z * string) :=
  word0 ← list_item (py_split line) 0;
  n ← py_int word0;
  filename ← list_item (py_split line) 1;
  mret (n + 1, filename).

Fixpoint iterLstFile (lines : list string) : list (Z * string) * option exn :=
  match lines with
  | [] => ([], None)
  | line :: rest =>
      if negb (contains_char "#" line) then
        match lstItem line with
        | Ok item =>
            let '(items, err) := iterLstFile rest in
            (item :: items, err)
        | Raise e => ([], Some e)
        end
      else iterLstFile rest
  end.

(** The lines of a list file: comments, and data lines made of a decimal
    numeral, white space, a path, and trailing white space. *)
Inductive lst_line : Type :=
| CommentLine (text : string)
| DataLine (digits : list nat) (sep path eol : string).

Definition digit_char (d : nat) : ascii := ascii_of_nat (48 + d).

Definition numeral (digits : list nat) : string :=
  fold_right (fun d s => String (digit_char d) s) EmptyString digits.

Definition numeral_value (digits : list nat) : Z :=
  fold_left (fun acc d => 10 * acc + Z.of_nat d) digits 0.

Fixpoint all_chars (p : ascii -> bool) (s : string) : bool :=
  match s with
  | EmptyString => true
  | String c s' => p c && all_chars p s'
  end.

Definition render_line (l : lst_line) : string :=
  match l with
  | CommentLine text => text
  | DataLine digits sep path eol => (numeral digits ++ sep ++ path ++ eol)%string
  end.

Definition well_formed_line (l : lst_line) : Prop :=
  match l with
  | CommentLine text => contains_char "#" text = true
  | DataLine digits sep path eol =>
      digits <> [] /\ Forall (fun d => (d < 10)%nat) digits /\
      sep <> EmptyString /\ all_chars is_space sep = true /\
      path <> EmptyString /\
      all_chars (fun c => negb (is_space c) && negb (Ascii.eqb c "#")) path = true /\
      all_chars is_space eol = true
  end.

Definition exposed_items (l : lst_line) : list (Z * string) :=
  match l with
  | CommentLine _ => []
  | DataLine digits _ path _ => [(numeral_value digits + 1, path)]
  end.

Definition sample_lst : list lst_line :=
  [ CommentLine "#LSX";
    CommentLine "# This file is in fast LST format";
    DataLine [0%nat] " " "particles/mic01__ctf_flip.hdf" (String "010" EmptyString);
    DataLine [1%nat; 2%nat] (String "009" EmptyString) "particles/mic02__ctf_flip.hdf"
             (String "010" EmptyString) ].

(** ** [readCoordinates] (convert.py, 157-173) *)

Record Micrograph : Type := {
  micName : string;
  getYDim : Z
}.

(** A coordinate of the host, as the arguments of [setPosition] and
    [setMicrograph] that it received. *)
Record Coordinate : Type := {
  coord_x : json;
  coord_y : json;
  coord_mic : Micrograph
}.

(** [for item in v]. *)
Definition py_iter (v : json) : result (list json) :=
  match v with
  | JArr l => Ok l
  | JObj d => Ok (map (fun kv => JStr (fst kv)) d)
  | JStr s => Ok (map (fun c => JStr (String c EmptyString)) (list_ascii_of_string s))
  | _ => Raise TypeError
  end.

(** [v[:2]], as the list of its items. *)
Definition py_slice2 (v : json) : result (list json) :=
  match v with
  | JArr l => Ok (firstn 2 l)
  | JStr s => Ok (map (fun c => JStr (String c EmptyString))
                      (firstn 2 (list_ascii_of_string s)))
  | _ => Raise TypeError
  end.

(** [x, y = items]. *)
Definition unpack2 (items : list json) : result (json * json) :=
  match items with
  | [x; y] => Ok (x, y)
  | _ => Raise ValueError
  end.

(** [h - y] for an [int] [h]. *)
Definition int_minus (h : Z) (y : json) : result json :=
  match y with
  | JInt z => Ok (JInt (h - z))
  | JFloat r => Ok (JFloat (IZR h - r))
  | JBool b => Ok (JInt (h - (if b then 1 else 0)))
  | _ => Raise TypeError
  end.

Definition boxCoordinate (mic : Micrograph) (invertY : bool) (box : json)
  : result Coordinate :=
  items ← py_slice2 box;
  xy ← unpack2 items;
  let x := fst xy in
  let y := snd xy in
  y ← (if invertY then int_minus (getYDim mic) y else mret y);
  mret {| coord_x := x; coord_y := y; coord_mic := mic |}.

(** The coordinate set after the loop, and the exception that ended it. *)
Fixpoint readCoordinates_loop (mic : Micrograph) (invertY : bool)
    (boxes : list json) (coordsSet : list Coordinate)
  : list Coordinate * option exn :=
  match boxes with
  | [] => (coordsSet, None)
  | box :: rest =>
      match boxCoordinate mic invertY box with
      | Ok coord => readCoordinates_loop mic invertY rest (coordsSet ++ [coord])
      | Raise e => (coordsSet, Some e)
      end
  end.

Definition readCoordinates `{Host} (mic : Micrograph) (fileName : string)
    (coordsSet : list Coordinate) (invertY : bool)
  : list Coordinate * option exn :=
  if path_exists fileName then
    match loadJson fileName with
    | Raise e => (coordsSet, Some e)
    | Ok jsonPosDict =>
        match py_in "boxes" jsonPosDict with
        | Raise e => (coordsSet, Some e)
        | Ok false => (coordsSet, None)
        | Ok true =>
            match (boxes ← getitem_key jsonPosDict "boxes"; py_iter boxes) with
            | Raise e => (coordsSet, Some e)
            | Ok boxes => readCoordinates_loop mic invertY boxes coordsSet
            end
        end
    end
  else (coordsSet, None).

(** Numbers of a box, and a box [x, y, ...] with a numeric [y]. *)
Inductive number : Type :=
| NInt (z : Z)
| NFloat (r : R).

Definition json_of_number (n : number) : json :=
  match n with
  | NInt z => JInt z
  | NFloat r => JFloat r
  end.

Record box2d : Type := { box_x : json; box_y : number; box_more : list json }.

Definition json_of_box (b : box2d) : json :=
  JArr (box_x b :: json_of_number (box_y b) :: box_more b).

Definition flipped (micHeight : Z) (y : number) : number :=
  match y with
  | NInt z => NInt (micHeight - z)
  | NFloat r => NFloat (IZR micHeight - r)
  end.

Definition coordinate_of_box (mic : Micrograph) (invertY : bool) (b : box2d)
  : Coordinate :=
  {| coord_x := box_x b;
     coord_y := json_of_number (if invertY then flipped (getYDim mic) (box_y b)
                                else box_y b);
     coord_mic := mic |}.

Definition mic100 : Micrograph := {| micName := "mic01.mrc"; getYDim := 100 |}.

Definition box_10_20 : box2d :=
  {| box_x := JInt 10; box_y := NInt 20; box_more := [JStr "manual"] |}.

Definition one_box_files : list (string * json) :=
  [("info/mic01_info.json", JObj [("boxes", JArr [json_of_box box_10_20])])].

(** ** [convertImagesStep] (protocol_refine2d_bispec.py, 265-311) *)

(** What the step did, oldest first.  The links and messages of
    [writeSetOfParticles] are wrapped in [Wrote]; [LinkedFile] is a
    [createLink] of the step itself, which only links bispectra files. *)
Inductive step_event : Type :=
| MadePath (path : string)
| Wrote (e : write_event)
| Printed (msg : string)
| RanJob (program args : string)
| LinkedFile (fn newFn : string).

(** The protocol that produced the bispectra. *)
Record BispecProtocol : Type := {
  outputParticles_flip_bispec : option (list Particle);
  prot_getExtraPath : string -> string;
  prot_getFileName : string -> string
}.

(** The fields of the protocol object that the step reads.  [inputBispec]
    is the pointer attribute ([None] when absent) with its target. *)
Record Refine2DBispec : Type := {
  _getInputParticles : list Particle;
  getAlignment : string;
  useInputBispec : bool;
  inputBispec : option (option BispecProtocol);
  skipctf : bool;
  _getExtraPath : string -> string;
  _getFileName : string -> string
}.

(** Programs, the file system, and the argument string of [e2ctf.py]
    (lines 280-287), which formats floats. *)
Class ProtocolHost : Type := {
  getProgram : string -> string;
  runJob : string -> string -> option exn;
  e2ctfArgs : Refine2DBispec -> string;
  glob_sorted : string -> list string;     (* [sorted(glob(pattern))] *)
  basename : string -> string
}.

(** A step: the events so far are threaded, and a raise ends the step. *)
Definition step (A : Type) : Type := list step_event -> list step_event * result A.

#[global] Instance step_ret : MRet step := fun A a log => (log, Ok a).

#[global] Instance step_bind : MBind step := fun A B k m log =>
  match m log with
  | (log', Ok a) => k a log'
  | (log', Raise e) => (log', Raise e)
  end.

Definition emit (e : step_event) : step unit := fun log => (log ++ [e], Ok tt).

Definition raise {A : Type} (e : exn) : step A := fun log => (log, Raise e).

Definition run_job `{ProtocolHost} (program args : string) : step unit :=
  fun log =>
    match runJob program args with
    | None => (log ++ [RanJob program args], Ok tt)
    | Some e => (log ++ [RanJob program args], Raise e)
    end.

Definition write_particles `{ParticleSetHost} `{Transformations}
    (partSet : list Particle) (path : string) (alignType : option string)
  : step unit :=
  fun log =>
    let '(events, err) := writeSetOfParticles partSet path EmptyString alignType in
    (log ++ map Wrote events,
     match err with
     | None => Ok tt
     | Some e => Raise e
     end).

Fixpoint link_all `{ParticleSetHost} `{ProtocolHost} (dir : string)
    (files : list string) : step unit :=
  match files with
  | [] => mret tt
  | fn :: rest =>
      let newFn := path_join dir (basename fn) in
      _ ← emit (LinkedFile fn newFn);
      _ ← emit (Printed ("    " ++ fn ++ " -> " ++ newFn));
      link_all dir rest
  end.

Definition size_mismatch : string :=
  "Input particles and bispectra sets have different size!".

Definition convertImagesStep `{ParticleSetHost} `{Transformations} `{ProtocolHost}
    (self : Refine2DBispec) : step unit :=
  let partSet := _getInputParticles self in
  let partAlign := getAlignment self in
  let storePath := _getExtraPath self "particles" in
  _ ← emit (MadePath storePath);
  _ ← write_particles partSet storePath (Some partAlign);
  skipctf ← (if useInputBispec self
                && match inputBispec self with Some _ => true | None => false end
             then
               _ ← emit (Printed "Skipping CTF estimation since input bispectra were provided");
               mret true
             else mret (skipctf self));
  _ ← (if negb skipctf then
         run_job (getProgram "e2ctf.py") (e2ctfArgs self)
       else mret tt);
  _ ← run_job (getProgram "e2buildsets.py")
              " --setname=inputSet --allparticles --minhisnr=-1";
  if useInputBispec self then
    match inputBispec self with
    | Some (Some prot) =>
        match outputParticles_flip_bispec prot with
        | Some bispec =>
            if negb (length bispec =? length partSet)%nat then
              raise (Exception size_mismatch)
            else
              let pattern := prot_getExtraPath prot "particles/*__ctf_flip_bispec.hdf" in
              _ ← emit (Printed (String "010" "Linking bispectra input files..."));
              _ ← link_all (_getExtraPath self "particles") (glob_sorted pattern);
              let lstFn := prot_getFileName prot "partSetFlipBispec" in
              let newLstFn := _getFileName self "partBispecSet" in
              emit (LinkedFile lstFn newLstFn)
        | None => raise AttributeError
        end
    | _ => raise AttributeError
    end
  else mret tt.

(** No bispectra file was linked. *)
Definition is_link (e : step_event) : bool :=
  match e with
  | LinkedFile _ _ => true
  | _ => false
  end.

Definition quiet_protocol_host : ProtocolHost := {|
  getProgram name := name;
  runJob _ _ := None;
  e2ctfArgs _ := EmptyString;
  glob_sorted _ := ["prev/extra/particles/a__ctf_flip_bispec.hdf"];
  basename fn := fn
|}.

Definition three_bispectra : BispecProtocol := {|
  outputParticles_flip_bispec :=
    Some [plain_particle "a.hdf" 1; plain_particle "a.hdf" 2; plain_particle "a.hdf" 3];
  prot_getExtraPath p := ("prev/extra/" ++ p)%string;
  prot_getFileName k := ("prev/" ++ k)%string
|}.

Definition five_particles_protocol : Refine2DBispec := {|
  _getInputParticles := concat two_stacks;
  getAlignment := "None";
  useInputBispec := true;
  inputBispec := Some (Some three_bispectra);
  skipctf := false;
  _getExtraPath p := ("extra/" ++ p)%string;
  _getFileName k := k
|}.

(** ** [getLastParticlesParams] (convert.py, 463-499) *)

Record ParticleParams : Type := {
  coverage : json;
  score : json;
  alignMatrix : json
}.

Class GlobHost : Type := {
  glob : string -> list string;
  os_path_join : string -> string -> string
}.

Definition is_digit (c : ascii) : bool :=
  match digit_of c with
  | Some _ => true
  | None => false
  end.

Fixpoint leading_digits (l : list ascii) : list ascii :=
  match l with
  | c :: l' => if is_digit c then c :: leading_digits l' else []
  | [] => []
  end.

(** [re.search(r'(\d+)\)$', key)] and [match.group(1)]: the digits that end
    at the closing parenthesis at the end of the key (or just before a final
    newline), when there is at least one. *)
Definition search_index (key : string) : option string :=
  let backwards := rev (list_ascii_of_string key) in
  let backwards := match backwards with
                   | "010"%char :: before => before
                   | _ => backwards
                   end in
  match backwards with
  | ")"%char :: before =>
      match leading_digits before with
      | [] => None
      | digits => Some (string_of_list_ascii (rev digits))
      end
  | _ => None
  end.

(** [v.get(key, default)]. *)
Definition py_get (v : json) (key : string) (default : json) : result json :=
  match v with
  | JObj d => Ok (match dict_get d key with
                  | Some x => x
                  | None => default
                  end)
  | _ => Raise AttributeError
  end.

(** [v.items()]. *)
Definition py_items (v : json) : result (list (string * json)) :=
  match v with
  | JObj d => Ok d
  | _ => Raise AttributeError
  end.

Fixpoint particlesParams_loop (items : list (string * json))
    (output : gmap Z ParticleParams) : result (gmap Z ParticleParams) :=
  match items with
  | [] => Ok output
  | (key, values) :: rest =>
      match search_index key with
      | None => particlesParams_loop rest output
      | Some group1 =>
          particleIndex ← py_int group1;
          coverage ← py_get values "coverage" JNull;
          score ← py_get values "score" JNull;
          xform ← py_get values "xform.align3d" (JObj []);
          alignMatrix ← py_get xform "matrix" JNull;
          if truthy coverage && truthy score && truthy alignMatrix then
            let customParticleParams :=
              {| coverage := coverage; score := score; alignMatrix := alignMatrix |} in
            particlesParams_loop rest (<[particleIndex := customParticleParams]> output)
          else particlesParams_loop rest output
      end
  end.

Definition getLastParticlesParams `{Host} `{GlobHost} (directory : string)
  : result (gmap Z ParticleParams) :=
  let particleParamsPaths := glob (os_path_join directory "particle_parms_*.json") in
  match last (merge_sort String.le particleParamsPaths) with
  | None => Raise (Exception "Particle params files not found")
  | Some lastParticleParamsPath =>
      particlesParams ← loadFile lastParticleParamsPath;
      items ← py_items particlesParams;
      particlesParams_loop items ∅
  end.

(** Entries that the filter of line 491 drops: a value that is 0, 0.0 or
    missing, and an alignment whose matrix is missing or empty. *)
Inductive zero_or_missing : option json -> Prop :=
| zm_missing : zero_or_missing None
| zm_int : zero_or_missing (Some (JInt 0))
| zm_float : zero_or_missing (Some (JFloat 0)).

Definition matrix_missing_or_empty (values : list (string * json)) : Prop :=
  dict_get values "xform.align3d" = None \/
  exists xform, dict_get values "xform.align3d" = Some (JObj xform) /\
                (dict_get xform "matrix" = None \/
                 dict_get xform "matrix" = Some (JArr [])).

(** The alignment, when there is one, is a dict. *)
Definition alignment_is_dict (values : list (string * json)) : Prop :=
  dict_get values "xform.align3d" = None \/
  exists xform, dict_get values "xform.align3d" = Some (JObj xform).

Definition glob_host (paths : list string) : GlobHost := {|
  glob _ := paths;
  os_path_join a b := (a ++ "/" ++ b)%string
|}.

Definition align_json : json :=
  JObj [("matrix", JArr [JFloat 1; JFloat 0; JFloat 0; JFloat 0;
                         JFloat 0; JFloat 1; JFloat 0; JFloat 0;
                         JFloat 0; JFloat 0; JFloat 1; JFloat 0])].

Definition zero_coverage_entry : string * json :=
  ("('particles/a.hdf', 1)",
   JObj [("coverage", JFloat 0); ("score", JFloat (-1)); ("xform.align3d", align_json)]).

Definition good_entry : string * json :=
  ("('particles/a.hdf', 0)",
   JObj [("coverage", JFloat 1); ("score", JFloat (-1)); ("xform.align3d", align_json)]).

Definition parms_files : list (string * json) :=
  [("spt/particle_parms_01.json", JObj []);
   ("spt/particle_parms_02.json", JObj [good_entry; zero_coverage_entry])].

(** ** Further fixtures and vocabulary for the CTF reader *)

(** The order in which [readCTFModel] reads the fields of a record. *)
Definition ctf_field_order : list string :=
  ["defocus"; "dfang"; "dfdiff"; "ampcont"].

Definition is_phase_call (c : ctf_call) : bool :=
  match c with
  | CallSetPhaseShift _ => true
  | _ => false
  end.

Definition short_frame_files : list (string * json) :=
  [("mic01_info.json",
    JObj [("ctf_frame", JArr [JInt 0]);
          ("ctf", JArr [JObj [("defocus", JFloat 1); ("dfang", JFloat 45);
                              ("dfdiff", JFloat (2 / 10)); ("ampcont", JInt 0)]])])].

Definition no_dfdiff_files : list (string * json) :=
  [("mic01_info.json",
    JObj [("ctf", JArr [JObj [("defocus", JFloat 1); ("dfang", JFloat 45);
                              ("ampcont", JInt 10)]])])].

(** ** Vocabulary for the further properties of the readers *)

(** A word as [str.split()] returns it, in a line without '#'. *)
Definition plain_word (w : string) : Prop :=
  w <> EmptyString /\
  all_chars (fun c => negb (is_space c)) w = true /\
  contains_char "#" w = false.

Definition count_data_lines (lines : list string) : nat :=
  length (List.filter (fun line => negb (contains_char "#" line)) lines).

Definition short_box_files : list (string * json) :=
  [("info/mic01_info.json",
    JObj [("boxes", JArr [json_of_box box_10_20; JArr [JInt 7]; json_of_box box_10_20])])].

(** ** Vocabulary for the further properties of the writers *)

(** The message sent for a particle: same file, the index corrected by 0 or
    1, and the item id of the particle. *)
Definition message_of (part : Particle) (e : write_event) : Prop :=
  exists objDict,
    e = Sent objDict /\
    _filename objDict = getFileName part /\
    _itemId objDict = Some (getObjId part) /\
    (_index objDict = index_of part \/ _index objDict = index_of part - 1).

Definition carries_no_alignment (part : Particle) (e : write_event) : Prop :=
  exists objDict,
    e = Sent objDict /\
    _shifts objDict = _shifts (getObjDict part) /\
    _angles objDict = _angles (getObjDict part).

(** ** [rowToAlignment] (convert.py, 376-399) *)

Class AlignmentTypes : Type := {
  ALIGN_PROJ : string                    (* [emcts.ALIGN_PROJ] *)
}.

(** The alignment is given by its matrix.  The list holds floats; only its
    first five entries are read. *)
Definition rowToAlignment `{Transformations} `{AlignmentTypes}
    (alignmentList : list R) (alignType : string) : result mat4 :=
  let inverseTransform := String.eqb alignType ALIGN_PROJ in
  shifts0 ← list_item alignmentList 3;
  shifts1 ← list_item alignmentList 4;
  angles0 ← list_item alignmentList 0;
  angles1 ← list_item alignmentList 1;
  angles2 ← list_item alignmentList 2;
  matrixFromGeometry (shifts0, shifts1, 0%R) (angles0, angles1, angles2)
    inverseTransform.

(** The matrix that [matrixFromGeometry] assembles before the optional
    inversion. *)
Definition assembled_matrix `{Transformations} (shifts angles : vec3)
    (inverseTransform : bool) : mat4 :=
  let '(a0, a1, a2) := vneg (vmap deg2rad angles) in
  set_column3 (euler_matrix a0 a1 a2 "szyz")
    (if inverseTransform then vneg shifts else shifts).

Definition proj_types : AlignmentTypes := {| ALIGN_PROJ := "Projection" |}.

Definition shift_1_2_0 : mat4 := set_column3 identity4 (1%R, 2%R, 0%R).

(** ** Vocabulary for the further properties of [getLastParticlesParams] *)

(** The particle index that the loop reads in a key, if any. *)
Definition key_index (key : string) : option Z :=
  match search_index key with
  | Some group1 =>
      match py_int group1 with
      | Ok z => Some z
      | Raise _ => None
      end
  | None => None
  end.

Definition accepted (p : ParticleParams) : Prop :=
  truthy (coverage p) = true /\
  truthy (score p) = true /\
  truthy (alignMatrix p) = true.

(** An entry that the filter drops (see [zero_or_missing]). *)
Definition dropped (values : json) : Prop :=
  exists v,
    values = JObj v /\
    alignment_is_dict v /\
    (zero_or_missing (dict_get v "coverage") \/
     zero_or_missing (dict_get v "score") \/
     matrix_missing_or_empty v).

(** ** [updateSubTomogram], the callback of [updateSetOfSubTomograms]
       (convert.py, 502-517) *)

(** The attributes that the callback sets on a subtomogram. *)
(** numpy and the host outside the numbers.  [bad_matrix_error] is what
    slicing or numpy raises for an alignment matrix that is a string or a
    dict (which exception depends on the versions of Python and numpy).
    [object_rows] is [numpy.matrix] on four rows that are not three numbers
    each: an array of another kind, or an exception.  [with_column] is
    [numpy.concatenate] of such an array with the column of the shifts. *)
Class MatrixHost : Type := {
  bad_matrix_error : json -> exn;
  other_array : Type;
  object_rows : list (list json) -> result other_array;
  with_column : other_array -> vec3 -> result other_array
}.

(** The matrix given to [Transform]: a matrix of numbers, or the array that
    numpy made of other values. *)
Inductive transform_matrix `{MatrixHost} : Type :=
| NumberMatrix (M : mat4)
| OtherMatrix (a : other_array).

Record SubTomogram `{MatrixHost} : Type := {
  st_coverage : option R;
  st_score : option R;
  st_transform : option transform_matrix
}.

Definition number_value (v : json) : option R :=
  match v with
  | JInt z => Some (IZR z)
  | JFloat r => Some r
  | JBool b => Some (if b then 1%R else 0%R)
  | _ => None
  end.

(** [l[i:j]] on a list, for [0 <= i <= j]. *)
Definition py_slice (l : list json) (i j : nat) : list json :=
  firstn (j - i) (skipn i l).

(** A row of three numbers. *)
Definition number_row (row : list json) : option vec3 :=
  match mapM number_value row with
  | Some [a; b; c] => Some (a, b, c)
  | _ => None
  end.

(** [v * samplingRate], the sampling rate being a float. *)
Definition times_float (v : json) (samplingRate : R) : result R :=
  match number_value v with
  | Some a => Ok (a * samplingRate)%R
  | None => Raise TypeError
  end.

(** Lines 512-516: the rows [am[0:3]], [am[4:7]], [am[8:11]] and [0, 0, 0]
    are given to [numpy.matrix]; then [am[3]], [am[7]] and [am[11]] are read
    and multiplied by the sampling rate, and the column of the three
    products and 1 is put to the right of the rows. *)
Definition alignTransform `{MatrixHost} (am : json) (samplingRate : R)
  : result transform_matrix :=
  match am with
  | JArr l =>
      let rows := [py_slice l 0 3; py_slice l 4 7; py_slice l 8 11] in
      angles ← match mapM number_row rows with
               | Some [r0; r1; r2] => Ok (inl (r0, r1, r2))
               | _ => a ← object_rows (rows ++ [[JInt 0; JInt 0; JInt 0]]);
                      mret (inr a)
               end;
      am3 ← list_item l 3;
      s0 ← times_float am3 samplingRate;
      am7 ← list_item l 7;
      s1 ← times_float am7 samplingRate;
      am11 ← list_item l 11;
      s2 ← times_float am11 samplingRate;
      match angles with
      | inl ((a0, a1, a2), (a4, a5, a6), (a8, a9, a10)) =>
          Ok (NumberMatrix (Mat4 a0 a1 a2 s0
                                 a4 a5 a6 s1
                                 a8 a9 a10 s2
                                 0 0 0 1))
      | inr a => matrix ← with_column a (s0, s1, s2);
                 mret (OtherMatrix matrix)
      end
  | JStr _ | JObj _ => Raise (bad_matrix_error am)
  | _ => Raise TypeError
  end.

Definition no_params_message (index : Z) : string :=
  ("Could not get params for particle " ++ pretty index)%string.

Definition updateSubTomogram `{Host} `{MatrixHost}
    (particlesParams : gmap Z ParticleParams) (samplingRate : R)
    (subTomogram : SubTomogram) (index : Z) : result SubTomogram :=
  match particlesParams !! index with
  | None => Raise (Exception (no_params_message index))
  | Some particleParams =>
      cov ← py_float (coverage particleParams);
      sc ← py_float (score particleParams);
      matrix ← alignTransform (alignMatrix particleParams) samplingRate;
      mret {| st_coverage := Some cov; st_score := Some sc;
              st_transform := Some matrix |}
  end.

(** A numpy that refuses rows that are not three numbers each. *)
Definition matrix_host : MatrixHost := {|
  bad_matrix_error _ := TypeError;
  other_array := unit;
  object_rows _ := Raise ValueError;
  with_column a _ := Ok a
|}.

Definition emptySubTomogram `{MatrixHost} : SubTomogram :=
  {| st_coverage := None; st_score := None; st_transform := None |}.

(** A parameters file with integer values: one accepted entry, for particle
    7, and one entry with zero coverage, for particle 8. *)
Definition int_matrix : json :=
  JArr [JInt 1; JInt 0; JInt 0; JInt 5;
        JInt 0; JInt 1; JInt 0; JInt 6;
        JInt 0; JInt 0; JInt 1; JInt 7].

Definition int_parms_files : list (string * json) :=
  [("spt/particle_parms_03.json",
    JObj [("('particles/a.hdf', 7)",
           JObj [("coverage", JInt 1); ("score", JInt (-2));
                 ("xform.align3d", JObj [("matrix", int_matrix)])]);
          ("('particles/a.hdf', 8)",
           JObj [("coverage", JInt 0); ("score", JInt (-2));
                 ("xform.align3d", JObj [("matrix", int_matrix)])])])].

Definition comment_parms_files : list (string * json) :=
  [("spt/particle_parms_04.json", JObj [("comment", JStr "no particle")])].

Definition one_entry_files : list (string * json) :=
  [("spt/particle_parms_05.json",
    JObj [("('particles/a.hdf', 12)",
           JObj [("coverage", JInt 1); ("score", JInt (-2));
                 ("xform.align3d", JObj [("matrix", int_matrix)])])])].

(** ** 3D coordinates: [readCoordinate3D], [coordinates2json]
       (convert.py, 175-182 and 451-460) *)

(** A 3D coordinate of the host, as the arguments of [setPosition] and
    [setVolume] that it received. *)
Record Coordinate3D : Type := {
  coord3_x : json;
  coord3_y : json;
  coord3_z : json;
  coord3_volume : string
}.

(** What [coordinates2json] reads of a coordinate of the input set. *)
Record Position3D : Type := {
  getX : Z;
  getY : Z;
  getZ : Z
}.

(** [v[:3]], as the list of its items. *)
Definition py_slice3 (v : json) : result (list json) :=
  match v with
  | JArr l => Ok (firstn 3 l)
  | JStr s => Ok (map (fun c => JStr (String c EmptyString))
                      (firstn 3 (list_ascii_of_string s)))
  | _ => Raise TypeError
  end.

(** [x, y, z = items]. *)
Definition unpack3 (items : list json) : result (json * json * json) :=
  match items with
  | [x; y; z] => Ok (x, y, z)
  | _ => Raise ValueError
  end.

Definition readCoordinate3D (box : json) (inputTomo : string) : result Coordinate3D :=
  items ← py_slice3 box;
  xyz ← unpack3 items;
  let '(x, y, z) := xyz in
  mret {| coord3_x := x; coord3_y := y; coord3_z := z; coord3_volume := inputTomo |}.

(** The file written: its path and the dictionary given to [writeJson]. *)
Definition coordinates2json (pathInputCoor : string) (iterCoordinates : list Position3D)
    (getBoxSize : Z) : string * json :=
  let coords :=
    map (fun coor => JArr [JInt (getX coor); JInt (getY coor); JInt (getZ coor);
                           JStr "manual"; JFloat 0; JInt 0])
        iterCoordinates in
  let coordDict :=
    JObj [("boxes_3d", JArr coords);
          ("class_list",
           JObj [("0", JObj [("boxsize", JInt getBoxSize);
                             ("name", JStr "particles_00")])])] in
  (pathInputCoor, coordDict).

(** ** Classes and iterations of the 2D refinement
       (protocol_refine2d_bispec.py, 415-431, 465-478 and 501-505) *)

(** [range(n)] *)
Definition py_range (n : Z) : list Z := map Z.of_nat (seq 0 (Z.to_nat n)).

(** The loop of [_execEmanProcess] that fills [self._classesInfo]. *)
Definition classesInfo (numberOfClassAvg : Z) (classesPath : string)
  : gmap Z (Z * string) :=
  fold_left (fun info classId => <[classId + 1 := (classId + 1, classesPath)]> info)
            (py_range numberOfClassAvg) ∅.

(** A class of the output set: its id and the location of its
    representative. *)
Record Class2D : Type := {
  class_objId : Z;
  representative_location : option (Z * string)
}.

Definition _updateClass (info : gmap Z (Z * string)) (item : Class2D) : Class2D :=
  let classId := class_objId item in
  match info !! classId with
  | Some (index, fn) =>
      {| class_objId := class_objId item;
         representative_location := Some (classId, fn) |}
  | None => item
  end.

(** [re.compile('classes_(\d{2})').search(f)], and [int] of its group. *)
Fixpoint search_iteration (f : string) : option Z :=
  match f with
  | EmptyString => None
  | String _ rest =>
      let here :=
        if String.prefix "classes_" f then
          match substring 8 2 f with
          | String d1 (String d2 EmptyString) =>
              match digit_of d1, digit_of d2 with
              | Some v1, Some v2 => Some (10 * v1 + v2)
              | _, _ => None
              end
          | _ => None
          end
        else None in
      match here with
      | Some n => Some n
      | None => search_iteration rest
      end
  end.

(** [files[index]]: a negative index counts from the end. *)
Definition first_or_last (files : list string) (index : Z) : result string :=
  let position := if index <? 0 then Z.of_nat (length files) + index else index in
  if position <? 0 then Raise IndexError
  else list_item files (Z.to_nat position).

Definition _getIterNumber `{ProtocolHost} (_iterTemplate : string) (index : Z)
  : result (option Z) :=
  let files := glob_sorted _iterTemplate in
  match files with
  | [] => mret None
  | _ :: _ =>
      f ← first_or_last files index;
      mret (search_iteration f)
  end.

Definition _lastIter `{ProtocolHost} (_iterTemplate : string) : result (option Z) :=
  _getIterNumber _iterTemplate (-1).

(** [self._getIterNumber(0) or 1] *)
Definition _firstIter `{ProtocolHost} (_iterTemplate : string) : result Z :=
  n ← _getIterNumber _iterTemplate 0;
  mret (match n with
        | Some k => if k =? 0 then 1 else k
        | None => 1
        end).

(** A run whose first classes file is iteration 0 and whose last is
    iteration 7. *)
Definition two_iterations_host : ProtocolHost := {|
  getProgram name := name;
  runJob _ _ := None;
  e2ctfArgs _ := EmptyString;
  glob_sorted _ := ["extra/r2db_01/classes_00.hdf"; "extra/r2db_01/classes_07.hdf"];
  basename fn := fn
|}.

(* ===================================================================== *)
(** * Part II. Theorems                                                   *)
(* ===================================================================== *)

(** ** Float comparisons *)

Lemma Rltb_true x y : (x < y)%R -> Rltb x y = true.
Proof. intros H. unfold Rltb. destruct (Rlt_dec x y); [reflexivity | contradiction]. Qed.

Lemma Rltb_false x y : (y <= x)%R -> Rltb x y = false.
Proof. intros H. unfold Rltb. destruct (Rlt_dec x y); [lra | reflexivity]. Qed.

Lemma Rleb_true x y : (x <= y)%R -> Rleb x y = true.
Proof. intros H. unfold Rleb. destruct (Rle_dec x y); [reflexivity | contradiction]. Qed.

Lemma Rleb_false x y : (y < x)%R -> Rleb x y = false.
Proof. intros H. unfold Rleb. destruct (Rle_dec x y); [lra | reflexivity]. Qed.

Lemma Reqb_refl x : Reqb x x = true.
Proof. unfold Reqb. destruct (Req_dec_T x x); [reflexivity | contradiction]. Qed.

Lemma Reqb_neq x y : x <> y -> Reqb x y = false.
Proof. intros H. unfold Reqb. destruct (Req_dec_T x y); [contradiction | reflexivity]. Qed.

Lemma rad2deg_deg2rad x : deg2rad (rad2deg x) = x.
Proof. unfold deg2rad, rad2deg. pose proof PI_RGT_0. field. lra. Qed.

Lemma deg2rad_rad2deg x : rad2deg (deg2rad x) = x.
Proof. unfold deg2rad, rad2deg. pose proof PI_RGT_0. field. lra. Qed.

Lemma rad2deg_opp x : rad2deg (- x) = (- rad2deg x)%R.
Proof. unfold rad2deg. ring. Qed.

Lemma deg2rad_opp x : deg2rad (- x) = (- deg2rad x)%R.
Proof. unfold deg2rad. ring. Qed.

(** ** The CTF phase shift *)

Lemma asin_half : asin (1 / 2) = (PI / 6)%R.
Proof.
  rewrite <- sin_PI6. apply asin_sin. pose proof PI_RGT_0. lra.
Qed.

Lemma phase_first a :
  (-100 < a <= 100)%R -> calculatePhaseShift a = rad2deg (asin (a / 100)).
Proof.
  intros [Hlo Hhi]. unfold calculatePhaseShift.
  rewrite (Rltb_true _ _ Hlo), (Rleb_true _ _ Hhi). reflexivity.
Qed.

Lemma phase_second a :
  (a > 100)%R -> calculatePhaseShift a = rad2deg (PI - asin (2 - a / 100)).
Proof.
  intros H. unfold calculatePhaseShift, Rgtb.
  rewrite (Rleb_false a 100) by lra. rewrite andb_false_r.
  rewrite (Rltb_true 100 a) by lra. reflexivity.
Qed.

Lemma phase_third a :
  (a <= -100)%R -> calculatePhaseShift a = rad2deg (- PI - asin (-2 - a / 100)).
Proof.
  intros H. unfold calculatePhaseShift, Rgtb.
  rewrite (Rltb_false (-100) a) by lra. rewrite andb_false_l.
  rewrite (Rltb_false 100 a) by lra. reflexivity.
Qed.

(** C2. [calculatePhaseShift] has exactly three branches: for
    -100 < ampcont <= 100 it is arcsin(ampcont/100) in degrees, for
    ampcont > 100 it is pi - arcsin(2 - ampcont/100) in degrees, and for
    ampcont <= -100 it is -pi - arcsin(-2 - ampcont/100) in degrees.  At the
    boundary values -100, 0, 100, 150 and -150 the branch taken is the third,
    first, first, second and third, and the results are -90, 0, 90, 150 and
    -150 degrees. *)
Theorem calculatePhaseShift_three_branches :
  (forall a, (-100 < a <= 100)%R ->
     calculatePhaseShift a = rad2deg (asin (a / 100))) /\
  (forall a, (a > 100)%R ->
     calculatePhaseShift a = rad2deg (PI - asin (2 - a / 100))) /\
  (forall a, (a <= -100)%R ->
     calculatePhaseShift a = rad2deg (- PI - asin (-2 - a / 100))) /\
  (calculatePhaseShift (-100) = rad2deg (- PI - asin (-2 - -100 / 100)) /\
   calculatePhaseShift (-100) = (-90)%R) /\
  (calculatePhaseShift 0 = rad2deg (asin (0 / 100)) /\
   calculatePhaseShift 0 = 0%R) /\
  (calculatePhaseShift 100 = rad2deg (asin (100 / 100)) /\
   calculatePhaseShift 100 = 90%R) /\
  (calculatePhaseShift 150 = rad2deg (PI - asin (2 - 150 / 100)) /\
   calculatePhaseShift 150 = 150%R) /\
  (calculatePhaseShift (-150) = rad2deg (- PI - asin (-2 - -150 / 100)) /\
   calculatePhaseShift (-150) = (-150)%R).
Proof.
  pose proof PI_RGT_0 as Hpi.
  split; [exact phase_first |].
  split; [exact phase_second |].
  split; [exact phase_third |].
  repeat split.
  - apply phase_third; lra.
  - rewrite phase_third by lra.
    replace (-2 - -100 / 100)%R with (- (1))%R by lra.
    rewrite asin_opp, asin_1. unfold rad2deg. field. lra.
  - apply phase_first; lra.
  - rewrite phase_first by lra.
    replace (0 / 100)%R with 0%R by lra.
    rewrite asin_0. unfold rad2deg. field. lra.
  - apply phase_first; lra.
  - rewrite phase_first by lra.
    replace (100 / 100)%R with 1%R by lra.
    rewrite asin_1. unfold rad2deg. field. lra.
  - apply phase_second; lra.
  - rewrite phase_second by lra.
    replace (2 - 150 / 100)%R with (1 / 2)%R by lra.
    rewrite asin_half. unfold rad2deg. field. lra.
  - apply phase_third; lra.
  - rewrite phase_third by lra.
    replace (-2 - -150 / 100)%R with (- (1 / 2))%R by lra.
    rewrite asin_opp, asin_half. unfold rad2deg. field. lra.
Qed.

Lemma calculatePhaseShift_three_branches_witness :
  (-100 < 50 <= 100)%R /\ calculatePhaseShift 50 = rad2deg (asin (50 / 100)).
Proof.
  split; [lra |].
  apply (proj1 calculatePhaseShift_three_branches 50%R). lra.
Defined.

(** ** Reading the CTF model *)

Lemma bind_Ok {A B : Type} (a : A) (k : A -> result B) : (Ok a ≫= k) = k a.
Proof. reflexivity. Qed.

Lemma py_in_absent d key : dict_get d key = None -> py_in key (JObj d) = Ok false.
Proof. intros E. simpl. rewrite E. reflexivity. Qed.

Lemma py_in_present d key v : dict_get d key = Some v -> py_in key (JObj d) = Ok true.
Proof. intros E. simpl. rewrite E. reflexivity. Qed.

Lemma selectKeyPos_absent `{CTFModelOps M} (m : M) d :
  dict_get d "ctf_frame" = None -> dict_get d "ctf" = None ->
  selectKeyPos m (JObj d) = Ok (JNull, setWrongDefocus m).
Proof.
  intros E1 E2. unfold selectKeyPos.
  rewrite (py_in_absent _ _ E1), bind_Ok.
  rewrite (py_in_absent _ _ E2), bind_Ok. reflexivity.
Qed.

(** C4 (amended). When the loaded metadata is a JSON object that has neither a
    'ctf_frame' key nor a 'ctf' key, [readCTFModel] does not raise: the model
    receives setDefocusU(-999), setDefocusV(-1), setDefocusAngle(-999) and
    then setPhaseShift(0.0), so that with plain accessors its defocus triple
    reads exactly (-999, -1, -999). *)
Theorem readCTFModel_without_ctf_keys `{Host} (filename : string) d :
  loadJson filename = Ok (JObj d) ->
  dict_get d "ctf_frame" = None ->
  dict_get d "ctf" = None ->
  (forall M (ops : CTFModelOps M) (m : M),
     readCTFModel m filename =
     Ok (setPhaseShift 0
           (setDefocusAngle (-999) (setDefocusV (-1) (setDefocusU (-999) m))))) /\
  (forall m : CTFFields, exists m',
     readCTFModel m filename = Ok m' /\
     defocusU m' = Some (-999)%R /\
     defocusV m' = Some (-1)%R /\
     defocusAngle m' = Some (-999)%R).
Proof.
  intros Hload E1 E2.
  assert (G : forall M (ops : CTFModelOps M) (m : M),
     readCTFModel m filename =
     Ok (setPhaseShift 0
           (setDefocusAngle (-999) (setDefocusV (-1) (setDefocusU (-999) m))))).
  { intros M ops m. unfold readCTFModel.
    rewrite Hload, bind_Ok.
    rewrite (selectKeyPos_absent m d E1 E2), bind_Ok. reflexivity. }
  split; [exact G |].
  intros m. eexists. split; [apply G |]. repeat split.
Qed.

Lemma readCTFModel_without_ctf_keys_witness :
  @readCTFModel (files_host no_ctf_files) _ ctf_call_log [] "mic01_info.json" =
  Ok [CallSetDefocusU (-999); CallSetDefocusV (-1); CallSetDefocusAngle (-999);
      CallSetPhaseShift 0].
Proof.
  apply (proj1 (@readCTFModel_without_ctf_keys (files_host no_ctf_files)
                  "mic01_info.json" [("boxes", JArr [])]
                  eq_refl eq_refl eq_refl) _ ctf_call_log []).
Defined.

(** C4, as first stated, fails when a key is there but holds no usable
    record: for the metadata [{"ctf": [null]}] the selected [keyPos] is
    [None], nothing is raised, and the model only receives
    setPhaseShift(0.0); its defocus triple is left as it was, not set to
    (-999, -1, -999). *)
Lemma readCTFModel_null_record_counterexample :
  @selectKeyPos _ ctf_call_log [] (JObj [("ctf", JArr [JNull])]) = Ok (JNull, []) /\
  @readCTFModel (files_host null_record_files) _ ctf_call_log [] "mic01_info.json" =
    Ok [CallSetPhaseShift 0] /\
  ~ (exists m',
       @readCTFModel (files_host null_record_files) _ ctf_fields emptyCTF
         "mic01_info.json" = Ok m' /\
       defocusU m' = Some (-999)%R /\
       defocusV m' = Some (-1)%R /\
       defocusAngle m' = Some (-999)%R).
Proof.
  split; [reflexivity |]. split; [reflexivity |].
  intros (m' & Hrun & HU & _). cbv in Hrun.
  injection Hrun as <-. discriminate HU.
Qed.

(** ** The defocus values *)

Lemma readField_ok `{Host} rec key v x :
  dict_get rec key = Some v -> py_float v = Ok x ->
  readField (JObj rec) key = Ok x.
Proof.
  intros E F. unfold readField. simpl. rewrite E. rewrite bind_Ok. exact F.
Qed.

Lemma truthy_record rec key v : dict_get rec key = Some v -> truthy (JObj rec) = true.
Proof. destruct rec; [discriminate | reflexivity]. Qed.

Lemma selectKeyPos_record `{CTFModelOps M} (m : M) d rec :
  ctf_record_at d rec -> selectKeyPos m (JObj d) = Ok (JObj rec, m).
Proof.
  intros [(l & E & N) | (E0 & l & E & N)]; unfold selectKeyPos.
  - rewrite (py_in_present _ _ _ E), bind_Ok.
    cbn [getitem_key]. rewrite E, bind_Ok.
    cbn [getitem_idx]. rewrite N, bind_Ok. reflexivity.
  - rewrite (py_in_absent _ _ E0), bind_Ok.
    rewrite (py_in_present _ _ _ E), bind_Ok.
    cbn [getitem_key]. rewrite E, bind_Ok.
    cbn [getitem_idx]. rewrite N, bind_Ok. reflexivity.
Qed.

(** C5. For a CTF record (taken from 'ctf_frame'[1], or else from 'ctf'[0])
    whose fields read as defocus, dfang, dfdiff and ampcont, the model
    receives setStandardDefocus(defocusU, defocusV, dfang) with
    defocusU = 10000*defocus + 5000*dfdiff and
    defocusV = 20000*defocus - defocusU, the angle being passed unchanged;
    for defocus = 1.0 and dfdiff = 0.2 these are 11000 and 9000. *)
Theorem readCTFModel_defocus_derivation `{Host} `{CTFModelOps M}
    (m : M) (filename : string) d rec vd va vf vc
    (defocus dfang dfdiff ampcont : R) :
  loadJson filename = Ok (JObj d) ->
  ctf_record_at d rec ->
  dict_get rec "defocus" = Some vd -> py_float vd = Ok defocus ->
  dict_get rec "dfang" = Some va -> py_float va = Ok dfang ->
  dict_get rec "dfdiff" = Some vf -> py_float vf = Ok dfdiff ->
  dict_get rec "ampcont" = Some vc -> py_float vc = Ok ampcont ->
  exists defocusU defocusV : R,
    defocusU = (10000 * defocus + 5000 * dfdiff)%R /\
    defocusV = (20000 * defocus - defocusU)%R /\
    readCTFModel m filename =
      (m' ← attachPsdFile filename (JObj d)
             (setStandardDefocus defocusU defocusV dfang m);
       Ok (setPhaseShift (calculatePhaseShift ampcont) m')) /\
    (defocus = 1%R -> dfdiff = (2 / 10)%R ->
     defocusU = 11000%R /\ defocusV = 9000%R).
Proof.
  intros Hload Hrec Ed Fd Ea Fa Ef Ff Ec Fc.
  pose proof (selectKeyPos_record m d rec Hrec) as Hsel.
  exists (10000 * defocus + 5000 * dfdiff)%R.
  exists (20000 * defocus - (10000 * defocus + 5000 * dfdiff))%R.
  split; [reflexivity |]. split; [reflexivity |]. split.
  - unfold readCTFModel. rewrite Hload, bind_Ok, Hsel, bind_Ok.
    cbn [fst snd]. rewrite (truthy_record _ _ _ Ed).
    rewrite (readField_ok _ _ _ _ Ed Fd), bind_Ok.
    rewrite (readField_ok _ _ _ _ Ea Fa), bind_Ok.
    rewrite (readField_ok _ _ _ _ Ef Ff), bind_Ok.
    rewrite (readField_ok _ _ _ _ Ec Fc), bind_Ok.
    reflexivity.
  - intros -> ->. split; lra.
Qed.

Lemma readCTFModel_defocus_derivation_witness :
  exists defocusU defocusV : R,
    defocusU = (10000 * 1 + 5000 * (2 / 10))%R /\
    defocusV = (20000 * 1 - defocusU)%R /\
    @readCTFModel (files_host ctf_record_files) _ ctf_call_log [] "mic01_info.json" =
      (m' ← @attachPsdFile (files_host ctf_record_files) _ ctf_call_log
             "mic01_info.json"
             (JObj [("ctf", JArr [JObj [("defocus", JFloat 1); ("dfang", JFloat 45);
                                        ("dfdiff", JFloat (2 / 10));
                                        ("ampcont", JInt 0)]])])
             [CallSetStandardDefocus defocusU defocusV 45];
       Ok (m' ++ [CallSetPhaseShift (calculatePhaseShift 0)])) /\
    (1%R = 1%R -> (2 / 10)%R = (2 / 10)%R ->
     defocusU = 11000%R /\ defocusV = 9000%R).
Proof.
  exact (@readCTFModel_defocus_derivation (files_host ctf_record_files)
           _ ctf_call_log [] "mic01_info.json" _ _ _ _ _ _ 1%R 45%R (2 / 10)%R 0%R
           eq_refl
           (or_intror (conj eq_refl (ex_intro _ _ (conj eq_refl eq_refl))))
           eq_refl eq_refl eq_refl eq_refl eq_refl eq_refl eq_refl eq_refl).
Defined.

(** ** The transform converter *)

Lemma vneg_involutive v : vneg (vneg v) = v.
Proof. destruct v as [[x y] z]. unfold vneg, vmap. f_equal; [f_equal |]; lra. Qed.

Lemma vmap_rad2deg_vneg v : vmap rad2deg (vneg v) = vneg (vmap rad2deg v).
Proof.
  destruct v as [[x y] z]. unfold vneg, vmap.
  rewrite !rad2deg_opp. reflexivity.
Qed.

Lemma radAngles_recovered e :
  vneg (vmap deg2rad (vneg (vmap rad2deg e))) = e.
Proof.
  destruct e as [[x y] z]. unfold vneg, vmap.
  rewrite !deg2rad_opp, !rad2deg_deg2rad.
  f_equal; [f_equal |]; lra.
Qed.

Lemma set_column3_rebuild E D :
  same_block E D -> affine_last_row E -> affine_last_row D ->
  set_column3 E (column3 D) = D.
Proof.
  intros (H00 & H01 & H02 & H10 & H11 & H12 & H20 & H21 & H22)
         (E30 & E31 & E32 & E33) (D30 & D31 & D32 & D33).
  destruct E, D; unfold set_column3, column3; simpl in *.
  congruence.
Qed.

(** When the matrix cannot be inverted, the exception of the inversion is
    the exception of [geometryFromMatrix]. *)
Lemma geometryFromMatrix_singular `{Transformations} (matrix : mat4) (e : exn) :
  inv matrix = Raise e -> geometryFromMatrix matrix true = Raise e.
Proof. intros Hinv. unfold geometryFromMatrix. rewrite Hinv. reflexivity. Qed.

(** C6. Let [decomposed] be the inverse of the matrix when inverse=true and
    the matrix itself when inverse=false, (tx, ty, tz) the translation that
    the library extracts from [decomposed], and (e0, e1, e2) its 'szyz' Euler
    angles, in radians.  Then [geometryFromMatrix] returns the shifts
    (-tx, -ty, -tz) when inverse=true and (tx, ty, tz), with no other
    operation, when inverse=false; and in both cases the angles
    (-e0 * 180/pi, -e1 * 180/pi, -e2 * 180/pi): negated, and in degrees. *)
Theorem geometryFromMatrix_spec `{Transformations} (matrix decomposed : mat4)
    (inverseTransform : bool) (tx ty tz e0 e1 e2 : R) :
  (if inverseTransform then inv matrix = Ok decomposed else decomposed = matrix) ->
  translation_from_matrix decomposed = (tx, ty, tz) ->
  euler_from_matrix decomposed "szyz" = (e0, e1, e2) ->
  geometryFromMatrix matrix inverseTransform =
    Ok (if inverseTransform then (- tx, - ty, - tz)%R else (tx, ty, tz),
        (- e0 * (180 / PI), - e1 * (180 / PI), - e2 * (180 / PI))%R).
Proof.
  intros Hdec Htr Heul. unfold geometryFromMatrix.
  assert (Hangles : vneg (vmap rad2deg (e0, e1, e2)) =
                    (- e0 * (180 / PI), - e1 * (180 / PI), - e2 * (180 / PI))%R).
  { unfold vneg, vmap, rad2deg. repeat f_equal; lra. }
  destruct inverseTransform.
  - rewrite Hdec, !bind_Ok. cbn [fst snd].
    rewrite Htr, Heul, Hangles. reflexivity.
  - subst decomposed. rewrite bind_Ok. cbn [fst snd].
    rewrite Htr, Heul, Hangles. reflexivity.
Qed.

Lemma geometryFromMatrix_spec_witness :
  @geometryFromMatrix turns_lib shift_1_2_3 true =
    Ok ((1, 2, 3), (-90, -180, 90))%R /\
  @geometryFromMatrix turns_lib shift_1_2_3 false =
    Ok ((1, 2, 3), (-90, -180, 90))%R.
Proof.
  assert (Hpi : PI <> 0%R) by exact PI_neq0.
  split.
  - rewrite (@geometryFromMatrix_spec turns_lib shift_1_2_3
               (set_column3 shift_1_2_3 (vneg (column3 shift_1_2_3))) true
               (Ropp 1) (Ropp 2) (Ropp 3) (PI / 2)%R PI (- (PI / 2))%R
               eq_refl eq_refl eq_refl).
    repeat f_equal; first [lra | field; exact Hpi].
  - rewrite (@geometryFromMatrix_spec turns_lib shift_1_2_3 shift_1_2_3 false
               1%R 2%R 3%R (PI / 2)%R PI (- (PI / 2))%R
               eq_refl eq_refl eq_refl).
    repeat f_equal; first [lra | field; exact Hpi].
Defined.



(** ** The index correction *)

Lemma correctIndex_same_file f a objDict :
  _filename objDict = f ->
  correctIndex (f, a) objDict = ((f, a), set_index (_index objDict - a) objDict).
Proof.
  intros <-. unfold correctIndex. rewrite String.eqb_refl. reflexivity.
Qed.

Lemma correctIndex_new_file prev a objDict :
  _filename objDict <> prev ->
  correctIndex (prev, a) objDict =
    let off := if _index objDict =? 0 then 0 else 1 in
    ((_filename objDict, off), set_index (_index objDict - off) objDict).
Proof.
  intros Hne. unfold correctIndex.
  destruct (String.eqb prev (_filename objDict)) eqn:E.
  - apply String.eqb_eq in E. congruence.
  - reflexivity.
Qed.

Lemma sent_indexes_Sent objDict events :
  sent_indexes (Sent objDict :: events) = _index objDict :: sent_indexes events.
Proof. reflexivity. Qed.

Lemma convertReferences_loop_run g : forall f a rest outputFn,
  Forall (fun part => getFileName part = f) g ->
  sent_indexes (convertReferences_loop (f, a) (g ++ rest) outputFn) =
  map (fun part => index_of part - a) g ++
  sent_indexes (convertReferences_loop (f, a) rest outputFn).
Proof.
  induction g as [| part g IH]; intros f a rest outputFn Hall.
  - reflexivity.
  - apply Forall_cons_iff in Hall as [Hpart Hg].
    cbn [app convertReferences_loop].
    rewrite correctIndex_same_file by exact Hpart.
    rewrite sent_indexes_Sent, (IH _ a rest outputFn Hg). reflexivity.
Qed.

Lemma convertReferences_loop_groups groups : forall prev a outputFn,
  grouped prev groups ->
  sent_indexes (convertReferences_loop (prev, a) (concat groups) outputFn) =
  normalized_indexes groups.
Proof.
  induction groups as [| g groups IH]; intros prev a outputFn Hgr.
  - reflexivity.
  - destruct g as [| first g]; [destruct Hgr |].
    destruct Hgr as (Hne & Hall & Hrest).
    apply Forall_cons_iff in Hall as [_ Hg].
    unfold normalized_indexes. cbn [concat map app convertReferences_loop].
    rewrite correctIndex_new_file by exact Hne.
    cbv beta iota zeta. rewrite sent_indexes_Sent.
    rewrite (convertReferences_loop_run g _ _ _ _ Hg).
    rewrite (IH _ _ outputFn Hrest).
    reflexivity.
Qed.

Lemma correctIndex_depends st d1 d2 :
  _filename d1 = _filename d2 -> _index d1 = _index d2 ->
  fst (correctIndex st d1) = fst (correctIndex st d2) /\
  _index (snd (correctIndex st d1)) = _index (snd (correctIndex st d2)).
Proof.
  intros Hf Hi. destruct st as [fileName a]. unfold correctIndex.
  rewrite Hf, Hi.
  destruct (negb (String.eqb fileName (_filename d2))); split; reflexivity.
Qed.

Lemma particleDict_keeps `{ParticleSetHost} `{Transformations}
    hasMicName path suffix alignType part objDict :
  particleDict hasMicName path suffix alignType part = Ok objDict ->
  _filename objDict = getFileName part /\ _index objDict = index_of part.
Proof.
  unfold particleDict, getFileName, index_of.
  destruct hasMicName.
  - destruct (getCoordinate part) as [coord |]; [| discriminate].
    destruct (getMicName coord) as [name |]; [| discriminate].
    rewrite bind_Ok.
    destruct (negb (String.eqb _ _));
      destruct (negb (bool_decide _));
      try (destruct (getTransform part) as [matrix |]; [| discriminate];
           destruct (alignmentToRow matrix) as [sa | e]; [| discriminate]);
      rewrite ?bind_Ok; intros [= <-]; split; reflexivity.
  - rewrite bind_Ok.
    destruct (negb (bool_decide _));
      try (destruct (getTransform part) as [matrix |]; [| discriminate];
           destruct (alignmentToRow matrix) as [sa | e]; [| discriminate]);
      rewrite ?bind_Ok; intros [= <-]; split; reflexivity.
Qed.

(** The writer of particle sets sends a prefix of what [convertReferences]
    sends for the same particles, and all of it when nothing is raised. *)
Lemma writeSetOfParticles_loop_indexes `{ParticleSetHost} `{Transformations}
    hasMicName path suffix alignType outputFn parts : forall st,
  (exists n,
     sent_indexes (fst (writeSetOfParticles_loop hasMicName path suffix alignType st parts)) =
     firstn n (sent_indexes (convertReferences_loop st parts outputFn))) /\
  (snd (writeSetOfParticles_loop hasMicName path suffix alignType st parts) = None ->
   sent_indexes (fst (writeSetOfParticles_loop hasMicName path suffix alignType st parts)) =
   sent_indexes (convertReferences_loop st parts outputFn)).
Proof.
  induction parts as [| part parts IH]; intros st.
  - split; [exists 0%nat |]; reflexivity.
  - cbn [writeSetOfParticles_loop convertReferences_loop].
    destruct (particleDict hasMicName path suffix alignType part) as [objDict | e] eqn:E.
    + destruct (particleDict_keeps _ _ _ _ _ _ E) as [Hf Hi].
      pose proof (correctIndex_depends st objDict
                    (set_itemId (getObjId part) (set_hdfFn outputFn (getObjDict part)))
                    Hf Hi) as [Hst Hidx].
      destruct (correctIndex st objDict) as [st1 d1].
      destruct (correctIndex st (set_itemId _ _)) as [st2 d2].
      cbn [fst snd] in Hst, Hidx. subst st2.
      specialize (IH st1). destruct IH as [[n Hn] Hall].
      destruct (writeSetOfParticles_loop hasMicName path suffix alignType st1 parts)
        as [events err].
      cbn [fst snd] in *. rewrite !sent_indexes_Sent. split.
      * exists (S n). cbn [firstn]. rewrite Hn, Hidx. reflexivity.
      * intros Herr. rewrite (Hall Herr), Hidx. reflexivity.
    + split; [exists 0%nat; reflexivity | discriminate].
Qed.

(** C3. Let the particles come in runs, each run made of the particles of one
    source file and starting where the file name changes.  Then for every
    run, if the index of its first particle is 0 the indexes of the run are
    written unchanged, and otherwise every index of the run is written minus
    1: [convertReferences] writes exactly these indexes, and
    [writeSetOfParticles] (on input that is not hdf) writes them up to the
    particle at which a collaborator raises, all of them when none does. *)
Theorem stack_index_normalization `{ParticleSetHost} `{Transformations}
    (groups : list (list Particle)) :
  grouped EmptyString groups ->
  (forall outputFn,
     sent_indexes (convertReferences (concat groups) outputFn) =
     normalized_indexes groups) /\
  (forall first rest path suffix alignType,
     inputIsHdf first = false ->
     iterParticlesByMic (first :: rest) = concat groups ->
     (exists n,
        sent_indexes (fst (writeSetOfParticles (first :: rest) path suffix alignType)) =
        firstn n (normalized_indexes groups)) /\
     (snd (writeSetOfParticles (first :: rest) path suffix alignType) = None ->
      sent_indexes (fst (writeSetOfParticles (first :: rest) path suffix alignType)) =
      normalized_indexes groups)).
Proof.
  intros Hgr. split.
  - intros outputFn. unfold convertReferences.
    apply convertReferences_loop_groups. exact Hgr.
  - intros first rest path suffix alignType Hext Hiter.
    unfold writeSetOfParticles. rewrite Hext, Hiter.
    rewrite <- (convertReferences_loop_groups groups EmptyString 0 EmptyString Hgr).
    apply writeSetOfParticles_loop_indexes.
Qed.

Lemma stack_index_normalization_witness :
  sent_indexes (convertReferences (concat two_stacks) "refs.hdf") = [0; 1; 2; 0; 1] /\
  sent_indexes
    (fst (@writeSetOfParticles plain_set_host translation_lib
            (concat two_stacks) "particles" "" (Some "None"))) = [0; 1; 2; 0; 1].
Proof.
  assert (G : grouped EmptyString two_stacks).
  { simpl. repeat split; try discriminate; repeat constructor. }
  destruct (@stack_index_normalization plain_set_host translation_lib two_stacks G)
    as [Href Hset].
  split.
  - exact (Href "refs.hdf").
  - refine (proj2 (Hset (plain_particle "a.mrcs" 1) _ "particles" "" (Some "None")
                     eq_refl eq_refl) _).
    reflexivity.
Defined.

(** ** The particle list file *)

Lemma digit_char_cases (P : nat -> Prop) :
  P 0%nat -> P 1%nat -> P 2%nat -> P 3%nat -> P 4%nat ->
  P 5%nat -> P 6%nat -> P 7%nat -> P 8%nat -> P 9%nat ->
  forall d, (d < 10)%nat -> P d.
Proof.
  intros H0 H1 H2 H3 H4 H5 H6 H7 H8 H9 d Hd.
  do 10 (destruct d as [| d]; [assumption |]). lia.
Qed.

Lemma digit_of_digit_char d :
  (d < 10)%nat -> digit_of (digit_char d) = Some (Z.of_nat d).
Proof. revert d. apply digit_char_cases; reflexivity. Qed.

Lemma digit_char_plain d :
  (d < 10)%nat ->
  is_space (digit_char d) = false /\
  Ascii.eqb (digit_char d) "#" = false /\
  Ascii.eqb (digit_char d) "+" = false /\
  Ascii.eqb (digit_char d) "-" = false.
Proof. revert d. apply digit_char_cases; repeat split; reflexivity. Qed.

Lemma parse_digits_numeral digits : forall acc,
  Forall (fun d => (d < 10)%nat) digits ->
  parse_digits true acc (numeral digits) =
  Some (fold_left (fun acc d => 10 * acc + Z.of_nat d) digits acc).
Proof.
  induction digits as [| d digits IH]; intros acc Hall.
  - reflexivity.
  - apply Forall_cons_iff in Hall as [Hd Hall].
    cbn [numeral fold_right parse_digits fold_left].
    rewrite (digit_of_digit_char d Hd). apply IH. exact Hall.
Qed.

Lemma py_int_numeral digits :
  digits <> [] -> Forall (fun d => (d < 10)%nat) digits ->
  py_int (numeral digits) = Ok (numeral_value digits).
Proof.
  intros Hne Hall. destruct digits as [| d digits]; [congruence |].
  apply Forall_cons_iff in Hall as [Hd Hall].
  assert (G : parse_digits false 0 (numeral (d :: digits)) =
              Some (numeral_value (d :: digits))).
  { cbn [numeral fold_right parse_digits].
    rewrite (digit_of_digit_char d Hd).
    apply (parse_digits_numeral digits _ Hall). }
  destruct (digit_char_plain d Hd) as (_ & _ & Hplus & Hminus).
  unfold py_int. cbn [numeral fold_right] in *.
  rewrite Hplus, Hminus, G. reflexivity.
Qed.

Lemma append_assoc (a b c : string) : ((a ++ b) ++ c = a ++ (b ++ c))%string.
Proof.
  induction a as [| x a IH]; [reflexivity |].
  change (String x ((a ++ b) ++ c) = String x (a ++ (b ++ c)))%string.
  rewrite IH. reflexivity.
Qed.

Lemma append_empty_r (a : string) : (a ++ "")%string = a.
Proof.
  induction a as [| x a IH]; [reflexivity |].
  change (String x (a ++ "") = String x a)%string.
  rewrite IH. reflexivity.
Qed.

Lemma split_from_word w : forall cur rest,
  all_chars (fun c => negb (is_space c)) w = true ->
  split_from cur (w ++ rest) = split_from (cur ++ w) rest.
Proof.
  induction w as [| c w IH]; intros cur rest Hw.
  - rewrite append_empty_r. reflexivity.
  - cbn [all_chars] in Hw. apply andb_true_iff in Hw as [Hc Hw].
    apply negb_true_iff in Hc.
    change (String c w ++ rest)%string with (String c (w ++ rest)%string).
    cbn [split_from]. rewrite Hc.
    rewrite (IH _ rest Hw), append_assoc. reflexivity.
Qed.

Lemma split_from_spaces sp : forall rest,
  all_chars is_space sp = true ->
  split_from EmptyString (sp ++ rest) = split_from EmptyString rest.
Proof.
  induction sp as [| c sp IH]; intros rest Hsp.
  - reflexivity.
  - cbn [all_chars] in Hsp. apply andb_true_iff in Hsp as [Hc Hsp].
    change (String c sp ++ rest)%string with (String c (sp ++ rest)%string).
    cbn [split_from]. rewrite Hc. apply IH. exact Hsp.
Qed.

Lemma split_from_end_of_word cur sp rest :
  cur <> EmptyString -> sp <> EmptyString -> all_chars is_space sp = true ->
  split_from cur (sp ++ rest) = cur :: split_from EmptyString rest.
Proof.
  intros Hcur Hne Hsp. destruct sp as [| c sp]; [congruence |].
  cbn [all_chars] in Hsp. apply andb_true_iff in Hsp as [Hc Hsp].
  change (String c sp ++ rest)%string with (String c (sp ++ rest)%string).
  cbn [split_from]. rewrite Hc.
  destruct cur as [| x cur]; [congruence |].
  rewrite (split_from_spaces sp rest Hsp). reflexivity.
Qed.

Lemma split_from_trailing cur eol :
  cur <> EmptyString -> all_chars is_space eol = true ->
  split_from cur eol = [cur].
Proof.
  intros Hcur Heol. destruct eol as [| c eol].
  - destruct cur; [congruence | reflexivity].
  - rewrite <- (append_empty_r (String c eol)).
    rewrite split_from_end_of_word by (assumption || discriminate).
    reflexivity.
Qed.

Lemma all_chars_weaken (p q : ascii -> bool) s :
  (forall c, p c = true -> q c = true) ->
  all_chars p s = true -> all_chars q s = true.
Proof.
  intros Hpq. induction s as [| c s IH]; [reflexivity |].
  cbn [all_chars]. intros H. apply andb_true_iff in H as [Hc Hs].
  rewrite (Hpq c Hc), (IH Hs). reflexivity.
Qed.

Lemma numeral_plain digits :
  Forall (fun d => (d < 10)%nat) digits ->
  all_chars (fun c => negb (is_space c) && negb (Ascii.eqb c "#")) (numeral digits) = true.
Proof.
  induction 1 as [| d digits Hd _ IH]; [reflexivity |].
  cbn [numeral fold_right all_chars].
  destruct (digit_char_plain d Hd) as (Hs & Hh & _).
  rewrite Hs, Hh. exact IH.
Qed.

Lemma numeral_nonempty digits : digits <> [] -> numeral digits <> EmptyString.
Proof. destruct digits; [congruence | discriminate]. Qed.

Lemma contains_char_append c a b :
  contains_char c (a ++ b) = contains_char c a || contains_char c b.
Proof.
  induction a as [| x a IH]; [reflexivity |].
  change (String x a ++ b)%string with (String x (a ++ b)%string).
  cbn [contains_char]. rewrite IH, orb_assoc. reflexivity.
Qed.

Lemma no_hash_plain s :
  all_chars (fun c => negb (is_space c) && negb (Ascii.eqb c "#")) s = true ->
  contains_char "#" s = false.
Proof.
  induction s as [| c s IH]; [reflexivity |].
  cbn [all_chars contains_char]. intros H.
  apply andb_true_iff in H as [Hc Hs]. apply andb_true_iff in Hc as [_ Hc].
  apply negb_true_iff in Hc. rewrite Hc, (IH Hs). reflexivity.
Qed.

Lemma no_hash_spaces s : all_chars is_space s = true -> contains_char "#" s = false.
Proof.
  induction s as [| c s IH]; [reflexivity |].
  cbn [all_chars contains_char]. intros H.
  apply andb_true_iff in H as [Hc Hs]. rewrite (IH Hs), orb_false_r.
  destruct (Ascii.eqb c "#") eqn:E; [| reflexivity].
  apply Ascii.eqb_eq in E. subst c. discriminate Hc.
Qed.

Lemma py_split_data_line digits sep path eol :
  well_formed_line (DataLine digits sep path eol) ->
  py_split (render_line (DataLine digits sep path eol)) = [numeral digits; path].
Proof.
  intros (Hne & Hdig & Hsep & Hsp & Hpath & Hplain & Heol).
  unfold py_split, render_line.
  assert (Hnum : all_chars (fun c => negb (is_space c)) (numeral digits) = true).
  { eapply all_chars_weaken; [| apply numeral_plain; exact Hdig].
    intros c Hc. apply andb_true_iff in Hc. tauto. }
  assert (Hword : all_chars (fun c => negb (is_space c)) path = true).
  { eapply all_chars_weaken; [| exact Hplain].
    intros c Hc. apply andb_true_iff in Hc. tauto. }
  rewrite (split_from_word _ EmptyString _ Hnum).
  change (EmptyString ++ numeral digits)%string with (numeral digits).
  rewrite (split_from_end_of_word _ _ _ (numeral_nonempty _ Hne) Hsep Hsp).
  rewrite (split_from_word _ EmptyString _ Hword).
  change (EmptyString ++ path)%string with path.
  rewrite (split_from_trailing _ _ Hpath Heol). reflexivity.
Qed.

Lemma data_line_no_hash digits sep path eol :
  well_formed_line (DataLine digits sep path eol) ->
  contains_char "#" (render_line (DataLine digits sep path eol)) = false.
Proof.
  intros (Hne & Hdig & Hsep & Hsp & Hpath & Hplain & Heol).
  unfold render_line. rewrite !contains_char_append.
  rewrite (no_hash_plain _ (numeral_plain _ Hdig)), (no_hash_spaces _ Hsp),
    (no_hash_plain _ Hplain), (no_hash_spaces _ Heol).
  reflexivity.
Qed.

(** C7. Every line that contains '#' is skipped, and every other line, made
    of the decimal numeral of N, white space and a path, yields (N + 1, path):
    the generator yields exactly these pairs, in order, and raises nothing. *)
Theorem iterLstFile_items (lines : list lst_line) :
  Forall well_formed_line lines ->
  iterLstFile (map render_line lines) = (flat_map exposed_items lines, None).
Proof.
  induction 1 as [| l lines Hl _ IH]; [reflexivity |].
  cbn [map iterLstFile flat_map]. destruct l as [text | digits sep path eol].
  - cbn [render_line well_formed_line] in *. rewrite Hl. cbn [negb]. exact IH.
  - rewrite (data_line_no_hash _ _ _ _ Hl). cbn [negb].
    unfold lstItem. rewrite (py_split_data_line _ _ _ _ Hl).
    cbn [list_item nth_error]. rewrite bind_Ok.
    destruct Hl as (Hne & Hdig & _).
    rewrite (py_int_numeral _ Hne Hdig), !bind_Ok.
    rewrite IH. reflexivity.
Qed.

Lemma iterLstFile_items_witness :
  iterLstFile (map render_line sample_lst) =
  ([(1, "particles/mic01__ctf_flip.hdf"); (13, "particles/mic02__ctf_flip.hdf")],
   None).
Proof.
  apply (iterLstFile_items sample_lst).
  unfold sample_lst.
  repeat (apply Forall_cons_iff; split); try apply Forall_nil;
    cbn [well_formed_line]; try reflexivity;
    repeat split; try discriminate; try reflexivity;
    repeat (apply Forall_cons_iff; split); try apply Forall_nil; lia.
Defined.

(** ** Reading 2D boxes *)

Lemma boxCoordinate_box mic invertY b :
  boxCoordinate mic invertY (json_of_box b) = Ok (coordinate_of_box mic invertY b).
Proof.
  unfold boxCoordinate, json_of_box, coordinate_of_box.
  destruct invertY, (box_y b); reflexivity.
Qed.

Lemma readCoordinates_loop_boxes mic invertY boxes : forall coordsSet,
  readCoordinates_loop mic invertY (map json_of_box boxes) coordsSet =
  (coordsSet ++ map (coordinate_of_box mic invertY) boxes, None).
Proof.
  induction boxes as [| b boxes IH]; intros coordsSet.
  - cbn. rewrite app_nil_r. reflexivity.
  - cbn [map readCoordinates_loop]. rewrite boxCoordinate_box, IH.
    rewrite <- app_assoc. reflexivity.
Qed.

(** C8. For a metadata file whose 'boxes' list holds boxes [x, y, ...],
    [readCoordinates] appends exactly one coordinate per box, in order, each
    with the given micrograph; its y is micHeight - y when invertY is set and
    y otherwise.  With invertY set and micHeight = 100, the box [10, 20]
    gives the coordinate (10, 80). *)
Theorem readCoordinates_boxes `{Host} (mic : Micrograph) (fileName : string)
    (coordsSet : list Coordinate) (invertY : bool) d (boxes : list box2d) :
  path_exists fileName = true ->
  loadJson fileName = Ok (JObj d) ->
  dict_get d "boxes" = Some (JArr (map json_of_box boxes)) ->
  readCoordinates mic fileName coordsSet invertY =
    (coordsSet ++ map (coordinate_of_box mic invertY) boxes, None) /\
  length (map (coordinate_of_box mic invertY) boxes) = length boxes /\
  Forall (fun c => coord_mic c = mic) (map (coordinate_of_box mic invertY) boxes) /\
  (getYDim mic = 100 -> invertY = true ->
   boxes = [ {| box_x := JInt 10; box_y := NInt 20; box_more := [] |} ] ->
   readCoordinates mic fileName coordsSet invertY =
     (coordsSet ++ [ {| coord_x := JInt 10; coord_y := JInt 80; coord_mic := mic |} ],
      None)).
Proof.
  intros Hex Hload Hboxes.
  assert (G : readCoordinates mic fileName coordsSet invertY =
              (coordsSet ++ map (coordinate_of_box mic invertY) boxes, None)).
  { unfold readCoordinates. rewrite Hex, Hload.
    rewrite (py_in_present _ _ _ Hboxes).
    cbn [getitem_key]. rewrite Hboxes, bind_Ok. cbn [py_iter].
    apply readCoordinates_loop_boxes. }
  split; [exact G |]. split; [apply length_map |]. split.
  - clear. induction boxes as [| b boxes IH]; cbn [map]; constructor;
      [reflexivity | exact IH].
  - intros HY -> ->. rewrite G.
    unfold coordinate_of_box. cbn [map box_x box_y flipped json_of_number].
    rewrite HY. reflexivity.
Qed.

Lemma readCoordinates_boxes_witness :
  @readCoordinates (files_host one_box_files) mic100 "info/mic01_info.json" [] true =
  ([ {| coord_x := JInt 10; coord_y := JInt 80; coord_mic := mic100 |} ], None).
Proof.
  exact (proj1 (@readCoordinates_boxes (files_host one_box_files) mic100
                  "info/mic01_info.json" [] true _ [box_10_20]
                  eq_refl eq_refl eq_refl)).
Defined.

(** ** The conversion step of the bispectra refinement *)

Lemma no_link_in_written events : existsb is_link (map Wrote events) = false.
Proof. induction events as [| e events IH]; [reflexivity | exact IH]. Qed.

(** C9. When bispectra are provided and their set has another size than the
    input particle set, [convertImagesStep] ends with an exception and has
    linked no bispectra file; when the steps before the check succeed
    (writing the particles, e2buildsets.py), the exception is the one with
    the message 'Input particles and bispectra sets have different size!'. *)
Theorem convertImagesStep_size_mismatch
    `{ParticleSetHost} `{Transformations} `{ProtocolHost}
    (self : Refine2DBispec) (prot : BispecProtocol) (bispec : list Particle) :
  useInputBispec self = true ->
  inputBispec self = Some (Some prot) ->
  outputParticles_flip_bispec prot = Some bispec ->
  length bispec <> length (_getInputParticles self) ->
  (exists e, snd (convertImagesStep self []) = Raise e) /\
  existsb is_link (fst (convertImagesStep self [])) = false /\
  (snd (writeSetOfParticles (_getInputParticles self) (_getExtraPath self "particles")
          EmptyString (Some (getAlignment self))) = None ->
   runJob (getProgram "e2buildsets.py")
          " --setname=inputSet --allparticles --minhisnr=-1" = None ->
   snd (convertImagesStep self []) = Raise (Exception size_mismatch)).
Proof.
  intros Huse Hptr Hout Hsize.
  apply Nat.eqb_neq in Hsize.
  unfold convertImagesStep. rewrite Huse, Hptr, Hout, Hsize.
  unfold mbind, step_bind, mret, step_ret, emit, write_particles, run_job, raise.
  cbn [andb negb app].
  destruct (writeSetOfParticles _ _ _ _) as [events [e |]];
    destruct (runJob _ _) as [e' |]; cbn [fst snd];
    repeat (cbn [existsb is_link orb] || rewrite existsb_app
            || rewrite no_link_in_written);
    (split; [eexists; reflexivity |]); (split; [reflexivity |]);
    intros; congruence.
Qed.

Lemma convertImagesStep_size_mismatch_witness :
  snd (@convertImagesStep plain_set_host translation_lib quiet_protocol_host
         five_particles_protocol []) = Raise (Exception size_mismatch) /\
  existsb is_link
    (fst (@convertImagesStep plain_set_host translation_lib quiet_protocol_host
            five_particles_protocol [])) = false.
Proof.
  destruct (@convertImagesStep_size_mismatch plain_set_host translation_lib
              quiet_protocol_host five_particles_protocol three_bispectra _
              eq_refl eq_refl eq_refl ltac:(discriminate))
    as (_ & Hlinks & Hraise).
  split; [apply Hraise; reflexivity | exact Hlinks].
Defined.

(** ** The parameters of the last iteration *)

Lemma zero_or_missing_falsy o :
  zero_or_missing o ->
  truthy (match o with Some x => x | None => JNull end) = false.
Proof.
  intros [| |]; cbn [truthy]; [reflexivity | reflexivity |].
  rewrite Reqb_refl. reflexivity.
Qed.

Lemma alignment_get values :
  alignment_is_dict values ->
  exists xform,
    match dict_get values "xform.align3d" with
    | Some x => x
    | None => JObj []
    end = JObj xform /\
    (matrix_missing_or_empty values ->
     truthy (match dict_get xform "matrix" with Some x => x | None => JNull end) = false).
Proof.
  intros [Hnone | (xform & Hsome)].
  - exists []. rewrite Hnone. split; reflexivity.
  - exists xform. rewrite Hsome. split; [reflexivity |].
    intros [Hcontra | (xform' & Heq & Hm)]; [congruence |].
    assert (xform' = xform) as -> by congruence.
    destruct Hm as [-> | ->]; reflexivity.
Qed.

Lemma leading_digits_all l : forallb is_digit (leading_digits l) = true.
Proof.
  induction l as [| c l IH]; [reflexivity |].
  cbn [leading_digits]. destruct (is_digit c) eqn:E; [| reflexivity].
  cbn [forallb]. rewrite E, IH. reflexivity.
Qed.

Lemma parse_digits_digits l : forall b acc,
  forallb is_digit l = true -> (l <> [] \/ b = true) ->
  exists z, parse_digits b acc (string_of_list_ascii l) = Some z.
Proof.
  induction l as [| c l IH]; intros b acc Hall Hne.
  - destruct Hne as [Hne | ->]; [congruence |]. exists acc. reflexivity.
  - cbn [forallb] in Hall. apply andb_true_iff in Hall as [Hc Hall].
    cbn [string_of_list_ascii parse_digits]. unfold is_digit in Hc.
    destruct (digit_of c) as [d |]; [| discriminate].
    apply IH; [exact Hall | right; reflexivity].
Qed.

Lemma is_digit_not_sign c :
  is_digit c = true -> Ascii.eqb c "+" = false /\ Ascii.eqb c "-" = false.
Proof.
  intros H. split.
  - destruct (Ascii.eqb c "+") eqn:E; [| reflexivity].
    apply Ascii.eqb_eq in E. subst c. discriminate H.
  - destruct (Ascii.eqb c "-") eqn:E; [| reflexivity].
    apply Ascii.eqb_eq in E. subst c. discriminate H.
Qed.

Lemma py_int_digits l :
  forallb is_digit l = true -> l <> [] ->
  exists z, py_int (string_of_list_ascii l) = Ok z.
Proof.
  intros Hall Hne.
  destruct (parse_digits_digits l false 0 Hall (or_introl Hne)) as [z Hz].
  exists z. unfold py_int. destruct l as [| c l]; [congruence |].
  cbn [forallb] in Hall. apply andb_true_iff in Hall as [Hc _].
  destruct (is_digit_not_sign c Hc) as [Hplus Hminus].
  cbn [string_of_list_ascii] in *. rewrite Hplus, Hminus, Hz. reflexivity.
Qed.

Lemma forallb_rev {A : Type} (p : A -> bool) (l : list A) :
  forallb p (rev l) = forallb p l.
Proof.
  induction l as [| x l IH]; [reflexivity |].
  cbn [rev forallb]. rewrite forallb_app, IH. cbn [forallb].
  rewrite andb_true_r. apply andb_comm.
Qed.

(** The group of a matching key is always accepted by [int]. *)
Lemma search_index_int key group1 :
  search_index key = Some group1 -> exists z, py_int group1 = Ok z.
Proof.
  unfold search_index.
  set (backwards := match rev (list_ascii_of_string key) with
                    | "010"%char :: before => before
                    | _ => rev (list_ascii_of_string key)
                    end).
  destruct backwards as [| c before]; [discriminate |].
  destruct (Ascii.eqb c ")") eqn:Ec.
  - apply Ascii.eqb_eq in Ec. subst c.
    destruct (leading_digits before) as [| d digits] eqn:Ed; [discriminate |].
    intros [= <-]. apply py_int_digits.
    + change (forallb is_digit (rev (d :: digits)) = true).
      rewrite forallb_rev, <- Ed. apply leading_digits_all.
    + change (rev (d :: digits) <> []). intros Hnil. apply (f_equal (@length ascii)) in Hnil.
      rewrite length_rev in Hnil. discriminate Hnil.
  - intros Hm. exfalso.
    destruct c as [b0 b1 b2 b3 b4 b5 b6 b7];
      destruct b0, b1, b2, b3, b4, b5, b6, b7; try discriminate Hm;
      discriminate Ec.
Qed.

Lemma particlesParams_loop_omits key values after output :
  alignment_is_dict values ->
  zero_or_missing (dict_get values "coverage") \/
  zero_or_missing (dict_get values "score") \/
  matrix_missing_or_empty values ->
  particlesParams_loop ((key, JObj values) :: after) output =
  particlesParams_loop after output.
Proof.
  intros Hdict Hdrop. cbn [particlesParams_loop].
  destruct (search_index key) as [group1 |] eqn:Hkey; [| reflexivity].
  destruct (search_index_int key group1 Hkey) as [particleIndex Hint].
  rewrite Hint, bind_Ok. cbn [py_get]. rewrite !bind_Ok.
  destruct (alignment_get values Hdict) as (xform & Hget & Hmat).
  rewrite Hget. cbn [py_get]. rewrite bind_Ok.
  destruct Hdrop as [Hc | [Hs | Hm]].
  - rewrite (zero_or_missing_falsy _ Hc). reflexivity.
  - rewrite (zero_or_missing_falsy _ Hs), andb_false_r. reflexivity.
  - rewrite (Hmat Hm), andb_false_r. reflexivity.
Qed.

Lemma particlesParams_loop_omits_within before : forall key values after output,
  alignment_is_dict values ->
  zero_or_missing (dict_get values "coverage") \/
  zero_or_missing (dict_get values "score") \/
  matrix_missing_or_empty values ->
  particlesParams_loop (before ++ (key, JObj values) :: after) output =
  particlesParams_loop (before ++ after) output.
Proof.
  induction before as [| [k v] before IH]; intros key values after output Hdict Hdrop.
  - apply particlesParams_loop_omits; assumption.
  - cbn [app particlesParams_loop].
    destruct (search_index k) as [group1 |]; [| apply IH; assumption].
    destruct (py_int group1) as [particleIndex | e]; [rewrite !bind_Ok | reflexivity].
    destruct (py_get v "coverage" JNull) as [c | e]; [rewrite !bind_Ok | reflexivity].
    destruct (py_get v "score" JNull) as [s | e]; [rewrite !bind_Ok | reflexivity].
    destruct (py_get v "xform.align3d" (JObj [])) as [x | e];
      [rewrite !bind_Ok | reflexivity].
    destruct (py_get x "matrix" JNull) as [m | e]; [rewrite !bind_Ok | reflexivity].
    destruct (truthy c && truthy s && truthy m); apply IH; assumption.
Qed.

(** C10. In the parameters file of the last iteration, an entry whose
    'coverage' or 'score' is 0, 0.0 or missing, or whose 'xform.align3d'
    matrix is missing or empty, contributes nothing to the returned mapping:
    the result is the one obtained from the file without that entry.  (The
    alignment of the entry, when present, is a dict; otherwise reading it
    raises before the filter.) *)
Theorem getLastParticlesParams_omits_falsy `{Host} `{GlobHost}
    (directory lastPath : string) before key values after :
  last (merge_sort String.le (glob (os_path_join directory "particle_parms_*.json")))
    = Some lastPath ->
  loadFile lastPath = Ok (JObj (before ++ (key, JObj values) :: after)) ->
  alignment_is_dict values ->
  zero_or_missing (dict_get values "coverage") \/
  zero_or_missing (dict_get values "score") \/
  matrix_missing_or_empty values ->
  getLastParticlesParams directory = particlesParams_loop (before ++ after) ∅.
Proof.
  intros Hlast Hload Hdict Hdrop.
  unfold getLastParticlesParams. rewrite Hlast, Hload, bind_Ok.
  cbn [py_items]. rewrite bind_Ok.
  apply particlesParams_loop_omits_within; assumption.
Qed.

Lemma getLastParticlesParams_omits_falsy_witness :
  @getLastParticlesParams (files_host parms_files)
     (glob_host ["spt/particle_parms_02.json"; "spt/particle_parms_01.json"]) "spt" =
  particlesParams_loop [good_entry] ∅.
Proof.
  apply (@getLastParticlesParams_omits_falsy (files_host parms_files)
           (glob_host ["spt/particle_parms_02.json"; "spt/particle_parms_01.json"])
           "spt" "spt/particle_parms_02.json" [good_entry]
           (fst zero_coverage_entry)
           [("coverage", JFloat 0); ("score", JFloat (-1)); ("xform.align3d", align_json)]
           []).
  - reflexivity.
  - reflexivity.
  - right. eexists. reflexivity.
  - left. exact zm_float.
Defined.

(* ===================================================================== *)
(** * Part III. Further properties of the converters                      *)
(* ===================================================================== *)

(** ** The CTF phase shift: symmetry and range *)

Lemma rad2deg_half_pi : rad2deg (PI / 2) = 90%R.
Proof. unfold rad2deg. pose proof PI_RGT_0. field. lra. Qed.

Lemma asin_minus_1 : asin (- (1)) = (- (PI / 2))%R.
Proof. rewrite asin_opp, asin_1. reflexivity. Qed.

Lemma phase_at_minus_100 : calculatePhaseShift (-100) = rad2deg (- (PI / 2)).
Proof.
  rewrite phase_third by lra.
  replace (-2 - -100 / 100)%R with (- (1))%R by lra.
  rewrite asin_minus_1. f_equal. lra.
Qed.

Lemma phase_at_100 : calculatePhaseShift 100 = rad2deg (PI / 2).
Proof.
  rewrite phase_first by lra.
  replace (100 / 100)%R with 1%R by lra.
  rewrite asin_1. reflexivity.
Qed.

(** X1. The phase shift is an odd function of the amplitude contrast, on the
    range where the arcsine is defined (|ampcont| <= 300), the two boundary
    values -100 and 100 included. *)
Theorem calculatePhaseShift_odd a :
  (-300 <= a <= 300)%R ->
  calculatePhaseShift (- a) = (- calculatePhaseShift a)%R.
Proof.
  intros _.
  destruct (Rle_dec a (-100)) as [Hlo | Hlo].
  - destruct (Req_dec_T a (-100)) as [-> | Hne].
    + replace (- -100)%R with 100%R by lra.
      rewrite phase_at_100, phase_at_minus_100, rad2deg_opp. lra.
    + rewrite (phase_third a Hlo), phase_second by lra.
      rewrite <- rad2deg_opp. f_equal.
      replace (-2 - a / 100)%R with (- (2 - - a / 100))%R by lra.
      rewrite asin_opp. lra.
  - destruct (Rle_dec a 100) as [Hhi | Hhi].
    + destruct (Req_dec_T a 100) as [-> | Hne].
      * replace (- (100))%R with (-100)%R by lra.
        rewrite phase_at_100, phase_at_minus_100, rad2deg_opp. reflexivity.
      * rewrite (phase_first a), (phase_first (- a)) by lra.
        rewrite <- rad2deg_opp. f_equal.
        replace (- a / 100)%R with (- (a / 100))%R by lra.
        apply asin_opp.
    + rewrite (phase_second a), (phase_third (- a)) by lra.
      rewrite <- rad2deg_opp. f_equal.
      replace (-2 - - a / 100)%R with (- (2 - a / 100))%R by lra.
      rewrite asin_opp. lra.
Qed.

Lemma calculatePhaseShift_odd_witness :
  calculatePhaseShift (- 150) = (- calculatePhaseShift 150)%R.
Proof. apply (calculatePhaseShift_odd 150%R). lra. Defined.

Lemma rad2deg_le x y : (x <= y)%R -> (rad2deg x <= rad2deg y)%R.
Proof.
  intros H. unfold rad2deg. apply Rmult_le_compat_r; [| exact H].
  pose proof PI_RGT_0. apply Rlt_le, Rdiv_lt_0_compat; lra.
Qed.

(** X2. On the nominal range -100 <= ampcont <= 100 the phase shift lies
    between -90 and 90 degrees and its sine gives the amplitude contrast
    back: 100 * sin(phase) = ampcont. *)
Theorem calculatePhaseShift_sine a :
  (-100 <= a <= 100)%R ->
  (-90 <= calculatePhaseShift a <= 90)%R /\
  (100 * sin (deg2rad (calculatePhaseShift a)) = a)%R.
Proof.
  intros [Hlo Hhi].
  assert (Hm90 : rad2deg (- (PI / 2)) = (-90)%R)
    by (rewrite rad2deg_opp, rad2deg_half_pi; reflexivity).
  destruct (Req_dec_T a (-100)) as [-> | Hne].
  - rewrite phase_at_minus_100. split.
    + rewrite Hm90. lra.
    + rewrite rad2deg_deg2rad, sin_neg, sin_PI2. lra.
  - rewrite phase_first by lra. split.
    + rewrite <- Hm90, <- rad2deg_half_pi.
      destruct (asin_bound (a / 100)) as [B1 B2].
      split; apply rad2deg_le; assumption.
    + rewrite rad2deg_deg2rad, sin_asin by lra. field.
Qed.

Lemma calculatePhaseShift_sine_witness :
  (-90 <= calculatePhaseShift 10 <= 90)%R /\
  (100 * sin (deg2rad (calculatePhaseShift 10)) = 10)%R.
Proof. apply (calculatePhaseShift_sine 10%R). lra. Defined.

(** X3. Beyond 100 the phase shift is the mirror image, about 90 degrees, of
    the phase shift of 200 - ampcont: for 100 <= ampcont <= 300 it equals
    180 - calculatePhaseShift(200 - ampcont). *)
Theorem calculatePhaseShift_reflection a :
  (100 <= a <= 300)%R ->
  calculatePhaseShift a = (180 - calculatePhaseShift (200 - a))%R.
Proof.
  intros [Hlo Hhi]. pose proof PI_RGT_0 as Hpi.
  destruct (Req_dec_T a 100) as [-> | Hne1].
  - replace (200 - 100)%R with 100%R by lra.
    rewrite phase_at_100, rad2deg_half_pi. lra.
  - destruct (Req_dec_T a 300) as [-> | Hne2].
    + replace (200 - 300)%R with (-100)%R by lra.
      rewrite phase_at_minus_100, rad2deg_opp, rad2deg_half_pi.
      rewrite phase_second by lra.
      replace (2 - 300 / 100)%R with (- (1))%R by lra.
      rewrite asin_minus_1. unfold rad2deg. field. lra.
    + rewrite (phase_second a), (phase_first (200 - a)) by lra.
      replace ((200 - a) / 100)%R with (2 - a / 100)%R by lra.
      unfold rad2deg. field. lra.
Qed.

Lemma calculatePhaseShift_reflection_witness :
  calculatePhaseShift 150 = (180 - calculatePhaseShift (200 - 150))%R.
Proof. apply (calculatePhaseShift_reflection 150%R). lra. Defined.

(** ** Reading the CTF model: errors and the shape of the calls *)

(** X4. 'ctf_frame' takes precedence: when it is there but holds fewer than
    two elements, reading raises IndexError, whatever 'ctf' holds. *)
Theorem readCTFModel_short_ctf_frame `{Host} `{CTFModelOps M}
    (m : M) (filename : string) d l :
  loadJson filename = Ok (JObj d) ->
  dict_get d "ctf_frame" = Some (JArr l) ->
  (length l < 2)%nat ->
  readCTFModel m filename = Raise IndexError.
Proof.
  intros Hload Hframe Hlen.
  unfold readCTFModel. rewrite Hload, bind_Ok.
  unfold selectKeyPos. rewrite (py_in_present _ _ _ Hframe), bind_Ok.
  cbn [getitem_key]. rewrite Hframe, bind_Ok. cbn [getitem_idx].
  assert (Hnth : nth_error l 1 = None) by (apply nth_error_None; lia).
  rewrite Hnth. reflexivity.
Qed.

Lemma readCTFModel_short_ctf_frame_witness :
  @readCTFModel (files_host short_frame_files) _ ctf_call_log [] "mic01_info.json" =
  Raise IndexError.
Proof.
  apply (@readCTFModel_short_ctf_frame (files_host short_frame_files) _ ctf_call_log
           [] "mic01_info.json" _ [JInt 0] eq_refl eq_refl).
  cbn. lia.
Defined.

(** X5. A record that lacks one of 'defocus', 'dfang', 'dfdiff', 'ampcont'
    makes the read raise KeyError for the first missing key, in that order,
    the fields before it being present and numeric. *)
Theorem readCTFModel_missing_field `{Host} `{CTFModelOps M}
    (m : M) (filename : string) d rec before key after :
  loadJson filename = Ok (JObj d) ->
  ctf_record_at d rec ->
  rec <> [] ->
  ctf_field_order = before ++ key :: after ->
  Forall (fun k => exists v x, dict_get rec k = Some v /\ py_float v = Ok x) before ->
  dict_get rec key = None ->
  readCTFModel m filename = Raise (KeyError key).
Proof.
  intros Hload Hrec Hne Horder Hbefore Hmiss.
  unfold readCTFModel. rewrite Hload, bind_Ok.
  rewrite (selectKeyPos_record m d rec Hrec), bind_Ok. cbn [fst snd].
  assert (Htruthy : truthy (JObj rec) = true)
    by (destruct rec; [congruence | reflexivity]).
  rewrite Htruthy.
  assert (Hmissing : readField (JObj rec) key = Raise (KeyError key)).
  { unfold readField. cbn [getitem_key]. rewrite Hmiss. reflexivity. }
  unfold ctf_field_order in Horder.
  destruct before as [| k1 before].
  { injection Horder as <- _. rewrite Hmissing. reflexivity. }
  apply Forall_cons_iff in Hbefore as [(v1 & x1 & E1 & F1) Hbefore].
  injection Horder as <- Horder.
  rewrite (readField_ok _ _ _ _ E1 F1), bind_Ok.
  destruct before as [| k2 before].
  { injection Horder as <- _. rewrite Hmissing. reflexivity. }
  apply Forall_cons_iff in Hbefore as [(v2 & x2 & E2 & F2) Hbefore].
  injection Horder as <- Horder.
  rewrite (readField_ok _ _ _ _ E2 F2), bind_Ok.
  destruct before as [| k3 before].
  { injection Horder as <- _. rewrite Hmissing. reflexivity. }
  apply Forall_cons_iff in Hbefore as [(v3 & x3 & E3 & F3) Hbefore].
  injection Horder as <- Horder.
  rewrite (readField_ok _ _ _ _ E3 F3), bind_Ok.
  destruct before as [| k4 before].
  { injection Horder as <- _. rewrite Hmissing. reflexivity. }
  injection Horder as _ Horder. destruct before; discriminate Horder.
Qed.

Lemma readCTFModel_missing_field_witness :
  @readCTFModel (files_host no_dfdiff_files) _ ctf_call_log [] "mic01_info.json" =
  Raise (KeyError "dfdiff").
Proof.
  apply (@readCTFModel_missing_field (files_host no_dfdiff_files) _ ctf_call_log
           [] "mic01_info.json" _
           [("defocus", JFloat 1); ("dfang", JFloat 45); ("ampcont", JInt 10)]
           ["defocus"; "dfang"] "dfdiff" ["ampcont"] eq_refl).
  - right. split; [reflexivity |]. eexists. split; reflexivity.
  - discriminate.
  - reflexivity.
  - repeat (apply Forall_cons_iff; split); try apply Forall_nil;
      eexists; eexists; split; reflexivity.
  - reflexivity.
Defined.

Lemma selectKeyPos_log (log : list ctf_call) jsonDict keyPos log' :
  @selectKeyPos _ ctf_call_log log jsonDict = Ok (keyPos, log') ->
  exists calls,
    log' = log ++ calls /\
    forallb (fun c => negb (is_phase_call c)) calls = true.
Proof.
  unfold selectKeyPos.
  destruct (py_in "ctf_frame" jsonDict) as [[|] | e]; [| | discriminate].
  - rewrite bind_Ok.
    destruct (getitem_key jsonDict "ctf_frame") as [frame | e]; [| discriminate].
    rewrite bind_Ok.
    destruct (getitem_idx frame 1) as [k | e]; [| discriminate].
    rewrite bind_Ok. intros [= _ <-]. exists []. rewrite app_nil_r.
    split; reflexivity.
  - rewrite bind_Ok.
    destruct (py_in "ctf" jsonDict) as [[|] | e]; [| | discriminate].
    + rewrite bind_Ok.
      destruct (getitem_key jsonDict "ctf") as [ctf | e]; [| discriminate].
      rewrite bind_Ok.
      destruct (getitem_idx ctf 0) as [k | e]; [| discriminate].
      rewrite bind_Ok. intros [= _ <-]. exists []. rewrite app_nil_r.
      split; reflexivity.
    + rewrite bind_Ok. intros [= _ <-].
      exists [CallSetDefocusU (-999); CallSetDefocusV (-1); CallSetDefocusAngle (-999)].
      split; [| reflexivity].
      unfold setWrongDefocus. cbn. rewrite <- !app_assoc. reflexivity.
Qed.

(** X6. Whenever the read succeeds, the calls already received by the model
    are kept, the new calls end with exactly one setPhaseShift, and no other
    new call is a setPhaseShift. *)
Theorem readCTFModel_ends_with_phase_shift `{Host}
    (log : list ctf_call) (filename : string) log' :
  @readCTFModel _ _ ctf_call_log log filename = Ok log' ->
  exists calls v,
    log' = log ++ calls ++ [CallSetPhaseShift v] /\
    forallb (fun c => negb (is_phase_call c)) calls = true.
Proof.
  unfold readCTFModel.
  destruct (loadJson filename) as [jsonDict | e]; [| discriminate].
  rewrite bind_Ok.
  destruct (@selectKeyPos _ ctf_call_log log jsonDict) as [[keyPos log1] | e] eqn:Hsel;
    [| discriminate].
  rewrite bind_Ok. cbn [fst snd].
  destruct (selectKeyPos_log _ _ _ _ Hsel) as (calls & -> & Hcalls).
  destruct (truthy keyPos).
  - destruct (readField keyPos "defocus") as [defocus | e]; [| discriminate].
    rewrite bind_Ok.
    destruct (readField keyPos "dfang") as [dfang | e]; [| discriminate].
    rewrite bind_Ok.
    destruct (readField keyPos "dfdiff") as [dfdiff | e]; [| discriminate].
    rewrite bind_Ok.
    destruct (readField keyPos "ampcont") as [ampcont | e]; [| discriminate].
    rewrite bind_Ok. cbv zeta. unfold attachPsdFile.
    destruct (py_in "ctf_im2d" jsonDict) as [[|] | e]; [| | discriminate].
    + rewrite bind_Ok.
      destruct (path_exists _); rewrite bind_Ok; intros [= <-].
      * eexists (calls ++ [_; _]), _. split.
        -- cbn. rewrite <- !app_assoc. reflexivity.
        -- rewrite forallb_app, Hcalls. reflexivity.
      * eexists (calls ++ [_]), _. split.
        -- cbn. rewrite <- !app_assoc. reflexivity.
        -- rewrite forallb_app, Hcalls. reflexivity.
    + rewrite !bind_Ok. intros [= <-].
      eexists (calls ++ [_]), _. split.
      * cbn. rewrite <- !app_assoc. reflexivity.
      * rewrite forallb_app, Hcalls. reflexivity.
  - intros [= <-]. exists calls, 0%R. split; [| exact Hcalls].
    cbn. rewrite <- app_assoc. reflexivity.
Qed.

Lemma readCTFModel_ends_with_phase_shift_witness :
  exists calls v,
    [CallSetStandardDefocus (10000 * 1 + 5000 * (2 / 10))
       (20000 * 1 - (10000 * 1 + 5000 * (2 / 10))) 45;
     CallSetPhaseShift (calculatePhaseShift (IZR 0))] =
    [] ++ calls ++ [CallSetPhaseShift v] /\
    forallb (fun c => negb (is_phase_call c)) calls = true.
Proof.
  exact (@readCTFModel_ends_with_phase_shift (files_host ctf_record_files)
           [] "mic01_info.json" _ eq_refl).
Defined.

(** ** Reading 2D boxes: what is kept, and where it stops *)

Lemma boxCoordinate_mic mic invertY box coord :
  boxCoordinate mic invertY box = Ok coord -> coord_mic coord = mic.
Proof.
  unfold boxCoordinate.
  destruct (py_slice2 box) as [items | e]; [| discriminate]. rewrite bind_Ok.
  destruct (unpack2 items) as [xy | e]; [| discriminate]. rewrite bind_Ok.
  destruct invertY.
  - destruct (int_minus (getYDim mic) (snd xy)) as [y | e]; [| discriminate].
    rewrite bind_Ok. intros [= <-]. reflexivity.
  - rewrite bind_Ok. intros [= <-]. reflexivity.
Qed.

Lemma readCoordinates_loop_appends mic invertY boxes : forall coordsSet,
  exists added,
    fst (readCoordinates_loop mic invertY boxes coordsSet) = coordsSet ++ added /\
    Forall (fun c => coord_mic c = mic) added /\
    (length added <= length boxes)%nat.
Proof.
  induction boxes as [| box boxes IH]; intros coordsSet.
  - exists []. cbn. rewrite app_nil_r. repeat split; constructor.
  - cbn [readCoordinates_loop].
    destruct (boxCoordinate mic invertY box) as [coord | e] eqn:E.
    + destruct (IH (coordsSet ++ [coord])) as (added & Hfst & Hmic & Hlen).
      exists (coord :: added). rewrite Hfst, <- app_assoc. repeat split.
      * constructor; [exact (boxCoordinate_mic _ _ _ _ E) | exact Hmic].
      * cbn [length]. lia.
    + exists []. cbn. rewrite app_nil_r. repeat split; [constructor | lia].
Qed.

(** X7. [readCoordinates] only appends: whatever the file holds and whether
    or not the read raises, the coordinates already in the set are kept, in
    order, and every coordinate added is attached to the given micrograph. *)
Theorem readCoordinates_only_appends `{Host} (mic : Micrograph) (fileName : string)
    (coordsSet : list Coordinate) (invertY : bool) :
  exists added,
    fst (readCoordinates mic fileName coordsSet invertY) = coordsSet ++ added /\
    Forall (fun c => coord_mic c = mic) added.
Proof.
  assert (Hsame : exists added : list Coordinate,
             coordsSet = coordsSet ++ added /\
             Forall (fun c => coord_mic c = mic) added).
  { exists []. rewrite app_nil_r. split; [reflexivity | constructor]. }
  unfold readCoordinates.
  destruct (path_exists fileName); [| exact Hsame].
  destruct (loadJson fileName) as [jsonPosDict | e]; [| exact Hsame].
  destruct (py_in "boxes" jsonPosDict) as [[|] | e]; [| exact Hsame | exact Hsame].
  destruct (getitem_key jsonPosDict "boxes") as [boxesJson | e];
    [rewrite bind_Ok | exact Hsame].
  destruct (py_iter boxesJson) as [boxes | e]; [| exact Hsame].
  destruct (readCoordinates_loop_appends mic invertY boxes coordsSet)
    as (added & Hfst & Hmic & _).
  exists added. split; assumption.
Qed.

(** X8. A box with fewer than two elements stops the read with ValueError;
    the coordinates of the boxes before it have been appended and the boxes
    after it are not read. *)
Theorem readCoordinates_short_box `{Host} (mic : Micrograph) (fileName : string)
    (coordsSet : list Coordinate) (invertY : bool) d
    (good : list box2d) (short rest : list json) :
  path_exists fileName = true ->
  loadJson fileName = Ok (JObj d) ->
  dict_get d "boxes" = Some (JArr (map json_of_box good ++ JArr short :: rest)) ->
  (length short < 2)%nat ->
  readCoordinates mic fileName coordsSet invertY =
    (coordsSet ++ map (coordinate_of_box mic invertY) good, Some ValueError).
Proof.
  intros Hex Hload Hboxes Hshort.
  unfold readCoordinates. rewrite Hex, Hload, (py_in_present _ _ _ Hboxes).
  cbn [getitem_key]. rewrite Hboxes, bind_Ok. cbn [py_iter].
  clear Hboxes. revert coordsSet.
  induction good as [| b good IH]; intros coordsSet.
  - cbn [map app readCoordinates_loop]. rewrite app_nil_r.
    assert (E : boxCoordinate mic invertY (JArr short) = Raise ValueError).
    { unfold boxCoordinate. cbn [py_slice2]. rewrite bind_Ok.
      destruct short as [| x [| y short]]; [reflexivity | reflexivity |].
      cbn [length] in Hshort. lia. }
    rewrite E. reflexivity.
  - cbn [map app readCoordinates_loop]. rewrite boxCoordinate_box, IH.
    rewrite <- app_assoc. reflexivity.
Qed.

Lemma readCoordinates_short_box_witness :
  @readCoordinates (files_host short_box_files) mic100 "info/mic01_info.json" [] true =
  ([ {| coord_x := JInt 10; coord_y := JInt 80; coord_mic := mic100 |} ],
   Some ValueError).
Proof.
  apply (@readCoordinates_short_box (files_host short_box_files) mic100
           "info/mic01_info.json" [] true _ [box_10_20] [JInt 7]
           [json_of_box box_10_20] eq_refl eq_refl eq_refl).
  cbn. lia.
Defined.

(** X9. Inverting Y is its own inverse: reading with invertY a box made of
    the coordinate obtained with invertY gives the original y back. *)
Theorem boxCoordinate_invertY_twice (mic : Micrograph) (b : box2d) :
  exists c1 c2,
    boxCoordinate mic true (json_of_box b) = Ok c1 /\
    boxCoordinate mic true (JArr [coord_x c1; coord_y c1]) = Ok c2 /\
    coord_x c2 = box_x b /\
    coord_y c2 = json_of_number (box_y b).
Proof.
  destruct b as [x y more]. cbn [box_x box_y].
  destruct y as [z | r].
  - exists {| coord_x := x; coord_y := JInt (getYDim mic - z); coord_mic := mic |}.
    exists {| coord_x := x; coord_y := JInt (getYDim mic - (getYDim mic - z));
              coord_mic := mic |}.
    repeat split. cbn [coord_y json_of_number]. f_equal. lia.
  - exists {| coord_x := x; coord_y := JFloat (IZR (getYDim mic) - r);
              coord_mic := mic |}.
    exists {| coord_x := x;
              coord_y := JFloat (IZR (getYDim mic) - (IZR (getYDim mic) - r));
              coord_mic := mic |}.
    repeat split. cbn [coord_y json_of_number]. f_equal. lra.
Qed.

(** ** The particle list file: errors and what is never yielded *)

Lemma iterLstFile_prefix (good : list lst_line) (rest : list string) :
  Forall well_formed_line good ->
  iterLstFile (map render_line good ++ rest) =
  (flat_map exposed_items good ++ fst (iterLstFile rest), snd (iterLstFile rest)).
Proof.
  induction 1 as [| l good Hl _ IH].
  - cbn. destruct (iterLstFile rest). reflexivity.
  - cbn [map app iterLstFile flat_map]. destruct l as [text | digits sep path eol].
    + cbn [render_line well_formed_line exposed_items] in *.
      rewrite Hl. cbn [negb app]. exact IH.
    + rewrite (data_line_no_hash _ _ _ _ Hl). cbn [negb].
      unfold lstItem. rewrite (py_split_data_line _ _ _ _ Hl).
      cbn [list_item nth_error]. rewrite bind_Ok.
      destruct Hl as (Hne & Hdig & _).
      rewrite (py_int_numeral _ Hne Hdig), !bind_Ok.
      rewrite IH. reflexivity.
Qed.

(** The next-line and no-break-space characters separate words, as the
    space does. *)
Lemma py_split_latin1_spaces :
  py_split ("0 a" ++ String (ascii_of_nat 160) "b.hdf" ++
            String (ascii_of_nat 133) "c")%string = ["0"; "a"; "b.hdf"; "c"].
Proof. reflexivity. Qed.

Lemma py_split_blank line : all_chars is_space line = true -> py_split line = [].
Proof.
  intros Hb. unfold py_split.
  rewrite <- (append_empty_r line).
  rewrite (split_from_spaces line EmptyString Hb). reflexivity.
Qed.

(** X10. A line without '#' that holds no word (an empty or blank line), or
    only a number, ends the iteration with IndexError; the items of the
    lines before it have been yielded and the lines after it are not read. *)
Theorem iterLstFile_incomplete_line (good : list lst_line) (line : string)
    (rest : list string) :
  Forall well_formed_line good ->
  (all_chars is_space line = true \/
   exists digits eol,
     digits <> [] /\ Forall (fun d => (d < 10)%nat) digits /\
     all_chars is_space eol = true /\
     line = (numeral digits ++ eol)%string) ->
  iterLstFile (map render_line good ++ line :: rest) =
  (flat_map exposed_items good, Some IndexError).
Proof.
  intros Hgood Hline.
  rewrite (iterLstFile_prefix good (line :: rest) Hgood).
  cbn [iterLstFile].
  destruct Hline as [Hblank | (digits & eol & Hne & Hdig & Heol & ->)].
  - rewrite (no_hash_spaces _ Hblank). cbn [negb].
    unfold lstItem. rewrite (py_split_blank _ Hblank).
    cbn. rewrite app_nil_r. reflexivity.
  - rewrite contains_char_append, (no_hash_plain _ (numeral_plain _ Hdig)),
      (no_hash_spaces _ Heol).
    cbn [orb negb]. unfold lstItem, py_split.
    assert (Hnum : all_chars (fun c => negb (is_space c)) (numeral digits) = true).
    { eapply all_chars_weaken; [| apply numeral_plain; exact Hdig].
      intros c Hc. apply andb_true_iff in Hc. tauto. }
    rewrite (split_from_word _ EmptyString _ Hnum).
    change (EmptyString ++ numeral digits)%string with (numeral digits).
    rewrite (split_from_trailing _ _ (numeral_nonempty _ Hne) Heol).
    cbn [list_item nth_error]. rewrite bind_Ok.
    rewrite (py_int_numeral _ Hne Hdig), bind_Ok.
    cbn. rewrite app_nil_r. reflexivity.
Qed.

Lemma iterLstFile_incomplete_line_witness :
  iterLstFile (map render_line sample_lst ++ [String "010" EmptyString; "5 x.hdf"]) =
  ([(1, "particles/mic01__ctf_flip.hdf"); (13, "particles/mic02__ctf_flip.hdf")],
   Some IndexError).
Proof.
  apply (iterLstFile_incomplete_line sample_lst (String "010" EmptyString) ["5 x.hdf"]).
  - unfold sample_lst.
    repeat (apply Forall_cons_iff; split); try apply Forall_nil;
      cbn [well_formed_line]; try reflexivity;
      repeat split; try discriminate; try reflexivity;
      repeat (apply Forall_cons_iff; split); try apply Forall_nil; lia.
  - left. reflexivity.
Defined.

Lemma all_chars_append p a b :
  all_chars p (a ++ b) = all_chars p a && all_chars p b.
Proof.
  induction a as [| x a IH]; [reflexivity |].
  change (String x a ++ b)%string with (String x (a ++ b)%string).
  cbn [all_chars]. rewrite IH, andb_assoc. reflexivity.
Qed.

Lemma split_from_plain_words s : forall cur,
  all_chars (fun c => negb (is_space c)) cur = true ->
  contains_char "#" cur = false ->
  contains_char "#" s = false ->
  Forall plain_word (split_from cur s).
Proof.
  induction s as [| c s IH]; intros cur Hcur Hhash Hs.
  - cbn [split_from]. destruct cur as [| x cur]; [constructor |].
    constructor; [| constructor]. repeat split; [discriminate | exact Hcur | exact Hhash].
  - cbn [contains_char] in Hs. apply orb_false_iff in Hs as [Hc Hs].
    cbn [split_from]. destruct (is_space c) eqn:Esp.
    + destruct cur as [| x cur].
      * apply IH; [reflexivity | reflexivity | exact Hs].
      * constructor.
        -- repeat split; [discriminate | exact Hcur | exact Hhash].
        -- apply IH; [reflexivity | reflexivity | exact Hs].
    + apply IH; [| | exact Hs].
      * rewrite all_chars_append, Hcur. cbn [all_chars]. rewrite Esp. reflexivity.
      * rewrite contains_char_append, Hhash. cbn [contains_char].
        rewrite Hc. reflexivity.
Qed.

Lemma lstItem_plain line item :
  contains_char "#" line = false -> lstItem line = Ok item -> plain_word (snd item).
Proof.
  intros Hhash. unfold lstItem.
  pose proof (split_from_plain_words line EmptyString eq_refl eq_refl Hhash) as Hwords.
  fold (py_split line) in Hwords.
  destruct (list_item (py_split line) 0) as [w0 | e]; [| discriminate]. rewrite bind_Ok.
  destruct (py_int w0) as [n | e]; [| discriminate]. rewrite bind_Ok.
  unfold list_item.
  destruct (nth_error (py_split line) 1) as [w1 |] eqn:E; [| discriminate].
  rewrite bind_Ok. intros [= <-]. cbn [snd].
  apply nth_error_In in E. rewrite Forall_forall in Hwords.
  apply Hwords. apply list_elem_of_In. exact E.
Qed.

(** X11. Whatever the lines are, every file name that [iterLstFile] yields
    is a non-empty word without white space and without '#', and there is at
    most one item per line that has no '#'. *)
Theorem iterLstFile_yields_plain_names (lines : list string) :
  Forall (fun item => plain_word (snd item)) (fst (iterLstFile lines)) /\
  (length (fst (iterLstFile lines)) <= count_data_lines lines)%nat.
Proof.
  unfold count_data_lines.
  induction lines as [| line lines [IHw IHn]]; [split; [constructor | cbn; lia] |].
  cbn [iterLstFile List.filter].
  destruct (contains_char "#" line) eqn:Hhash; cbn [negb].
  - split; assumption.
  - destruct (lstItem line) as [item | e] eqn:E.
    + destruct (iterLstFile lines) as [items err]. cbn [fst] in *. split.
      * constructor; [exact (lstItem_plain _ _ Hhash E) | exact IHw].
      * cbn [length]. lia.
    + cbn [fst length]. split; [constructor | lia].
Qed.

(** ** The writers: what every message looks like *)

Lemma correctIndex_cases st objDict :
  (snd st = 0 \/ snd st = 1) ->
  (snd (fst (correctIndex st objDict)) = 0 \/ snd (fst (correctIndex st objDict)) = 1) /\
  _filename (snd (correctIndex st objDict)) = _filename objDict /\
  hdfFn (snd (correctIndex st objDict)) = hdfFn objDict /\
  _shifts (snd (correctIndex st objDict)) = _shifts objDict /\
  _angles (snd (correctIndex st objDict)) = _angles objDict /\
  _itemId (snd (correctIndex st objDict)) = _itemId objDict /\
  (_index (snd (correctIndex st objDict)) = _index objDict \/
   _index (snd (correctIndex st objDict)) = _index objDict - 1).
Proof.
  destruct st as [fileName a]. cbn [snd]. intros Ha. unfold correctIndex.
  destruct (negb (String.eqb fileName (_filename objDict))); cbn [fst snd set_index
    _filename hdfFn _shifts _angles _itemId _index].
  - destruct (_index objDict =? 0); repeat split;
      solve [reflexivity | left; lia | right; lia].
  - destruct Ha as [-> | ->]; repeat split;
      solve [reflexivity | left; lia | right; lia].
Qed.

Lemma convertReferences_loop_messages refSet outputFn : forall st,
  (snd st = 0 \/ snd st = 1) ->
  Forall2 (fun part e => message_of part e /\
                         exists objDict, e = Sent objDict /\ hdfFn objDict = Some outputFn)
          refSet (convertReferences_loop st refSet outputFn).
Proof.
  induction refSet as [| part refSet IH]; intros st Hst; [constructor |].
  cbn [convertReferences_loop].
  pose proof (correctIndex_cases st
                (set_itemId (getObjId part) (set_hdfFn outputFn (getObjDict part))) Hst)
    as (Hst' & Hf & Hh & _ & _ & Hi & Hx).
  destruct (correctIndex st _) as [st' objDict]. cbn [fst snd] in *.
  constructor; [| apply IH; exact Hst'].
  split.
  - exists objDict. repeat split; assumption.
  - exists objDict. split; [reflexivity | exact Hh].
Qed.

(** X12. Whatever the order of the references, [convertReferences] sends
    exactly one message per reference, in order; each message keeps the file
    name, carries the object id and the output file, and its index is the
    index of the reference or that index minus 1. *)
Theorem convertReferences_messages (refSet : list Particle) (outputFn : string) :
  Forall2 (fun part e => message_of part e /\
                         exists objDict, e = Sent objDict /\ hdfFn objDict = Some outputFn)
          refSet (convertReferences refSet outputFn).
Proof.
  unfold convertReferences. apply convertReferences_loop_messages.
  left. reflexivity.
Qed.

(** X13. The loop starts with an empty file name, so references at the start
    of the set whose file name is empty are not taken for a new file: their
    indexes are written unchanged, whatever they are. *)
Theorem convertReferences_empty_file_name (unnamed rest : list Particle)
    (outputFn : string) :
  Forall (fun part => getFileName part = EmptyString) unnamed ->
  firstn (length unnamed) (sent_indexes (convertReferences (unnamed ++ rest) outputFn)) =
  map index_of unnamed.
Proof.
  intros Hall. unfold convertReferences.
  rewrite (convertReferences_loop_run unnamed EmptyString 0 rest outputFn Hall).
  rewrite <- (length_map (fun part => index_of part - 0) unnamed) at 1.
  rewrite firstn_app, Nat.sub_diag, firstn_all. cbn [firstn]. rewrite app_nil_r.
  apply map_ext. intros part. lia.
Qed.

Lemma convertReferences_empty_file_name_witness :
  firstn 2 (sent_indexes
              (convertReferences
                 ([plain_particle EmptyString 5; plain_particle EmptyString 6]
                    ++ [plain_particle "a.mrcs" 1]) "refs.hdf")) = [5; 6].
Proof.
  apply (convertReferences_empty_file_name
           [plain_particle EmptyString 5; plain_particle EmptyString 6]
           [plain_particle "a.mrcs" 1] "refs.hdf").
  repeat constructor.
Defined.

Lemma particleDict_fields `{ParticleSetHost} `{Transformations}
    hasMicName path suffix alignType part objDict :
  particleDict hasMicName path suffix alignType part = Ok objDict ->
  _itemId objDict = Some (getObjId part) /\
  (alignType = Some ALIGN_NONE ->
   _shifts objDict = _shifts (getObjDict part) /\
   _angles objDict = _angles (getObjDict part)).
Proof.
  unfold particleDict.
  destruct hasMicName.
  - destruct (getCoordinate part) as [coord |]; [| discriminate].
    destruct (getMicName coord) as [name |]; [| discriminate].
    rewrite bind_Ok.
    destruct (negb (String.eqb _ _));
      (destruct (bool_decide (alignType = Some ALIGN_NONE)) eqn:Ealign; cbn [negb];
       [rewrite !bind_Ok; intros [= <-]; split; [reflexivity | intros _; split; reflexivity]
       | destruct (getTransform part) as [matrix |]; [| discriminate];
         destruct (alignmentToRow matrix) as [sa | e]; [| discriminate];
         rewrite !bind_Ok; intros [= <-]; split; [reflexivity |];
         intros Habs; apply bool_decide_eq_false in Ealign; contradiction]).
  - rewrite bind_Ok.
    destruct (bool_decide (alignType = Some ALIGN_NONE)) eqn:Ealign; cbn [negb];
      [rewrite !bind_Ok; intros [= <-]; split; [reflexivity | intros _; split; reflexivity]
      | destruct (getTransform part) as [matrix |]; [| discriminate];
        destruct (alignmentToRow matrix) as [sa | e]; [| discriminate];
        rewrite !bind_Ok; intros [= <-]; split; [reflexivity |];
        intros Habs; apply bool_decide_eq_false in Ealign; contradiction].
Qed.

Lemma writeSetOfParticles_loop_messages `{ParticleSetHost} `{Transformations}
    hasMicName path suffix alignType parts : forall st,
  (snd st = 0 \/ snd st = 1) ->
  exists n,
    (n <= length parts)%nat /\
    Forall2 message_of (firstn n parts)
      (fst (writeSetOfParticles_loop hasMicName path suffix alignType st parts)) /\
    (snd (writeSetOfParticles_loop hasMicName path suffix alignType st parts) = None ->
     n = length parts).
Proof.
  induction parts as [| part parts IH]; intros st Hst.
  - exists 0%nat. cbn. repeat split; [lia | constructor].
  - cbn [writeSetOfParticles_loop].
    destruct (particleDict hasMicName path suffix alignType part) as [objDict | e] eqn:E.
    + destruct (particleDict_keeps _ _ _ _ _ _ E) as [Hf Hi].
      destruct (particleDict_fields _ _ _ _ _ _ E) as [Hid _].
      pose proof (correctIndex_cases st objDict Hst)
        as (Hst' & Hf' & _ & _ & _ & Hid' & Hx).
      destruct (correctIndex st objDict) as [st' objDict']. cbn [fst snd] in *.
      destruct (IH st' Hst') as (n & Hn & Hmsgs & Hall).
      destruct (writeSetOfParticles_loop hasMicName path suffix alignType st' parts)
        as [events err]. cbn [fst snd] in *.
      exists (S n). cbn [firstn length]. repeat split.
      * lia.
      * constructor; [| exact Hmsgs].
        exists objDict'. split; [reflexivity |]. split; [congruence |].
        split; [congruence |]. rewrite <- Hi. exact Hx.
      * intros Herr. rewrite (Hall Herr). reflexivity.
    + exists 0%nat. cbn. repeat split; [lia | constructor | discriminate].
Qed.

(** X14. For input that is not hdf, [writeSetOfParticles] sends one message
    per particle, in the order of iteration, up to the particle at which a
    collaborator raises (all of them when nothing is raised); each message
    keeps the file name, carries the object id, and its index is the index of
    the particle or that index minus 1.  No link is created. *)
Theorem writeSetOfParticles_messages `{ParticleSetHost} `{Transformations}
    (first : Particle) (rest : list Particle) (path suffix : string)
    (alignType : option string) :
  inputIsHdf first = false ->
  exists n,
    (n <= length (iterParticlesByMic (first :: rest)))%nat /\
    Forall2 message_of (firstn n (iterParticlesByMic (first :: rest)))
      (fst (writeSetOfParticles (first :: rest) path suffix alignType)) /\
    (snd (writeSetOfParticles (first :: rest) path suffix alignType) = None ->
     n = length (iterParticlesByMic (first :: rest))).
Proof.
  intros Hext. unfold writeSetOfParticles. rewrite Hext.
  apply writeSetOfParticles_loop_messages. left. reflexivity.
Qed.

Lemma writeSetOfParticles_messages_witness :
  exists n,
    (n <= 5)%nat /\
    Forall2 message_of (firstn n (concat two_stacks))
      (fst (@writeSetOfParticles plain_set_host translation_lib
              (concat two_stacks) "particles" "" (Some "None"))) /\
    (snd (@writeSetOfParticles plain_set_host translation_lib
              (concat two_stacks) "particles" "" (Some "None")) = None ->
     n = 5%nat).
Proof.
  exact (@writeSetOfParticles_messages plain_set_host translation_lib
           (plain_particle "a.mrcs" 1) (tl (concat two_stacks))
           "particles" "" (Some "None") eq_refl).
Defined.

Lemma writeSetOfParticles_loop_no_alignment `{ParticleSetHost} `{Transformations}
    path suffix parts : forall st,
  snd (writeSetOfParticles_loop false path suffix (Some ALIGN_NONE) st parts) = None /\
  Forall2 carries_no_alignment parts
    (fst (writeSetOfParticles_loop false path suffix (Some ALIGN_NONE) st parts)).
Proof.
  induction parts as [| part parts IH]; intros st; [split; [reflexivity | constructor] |].
  cbn [writeSetOfParticles_loop].
  destruct (particleDict false path suffix (Some ALIGN_NONE) part) as [objDict | e] eqn:E.
  - destruct (particleDict_fields _ _ _ _ _ _ E) as [_ Halign].
    destruct (Halign eq_refl) as [Hs Ha].
    pose proof (correctIndex_cases st objDict) as Hcases.
    assert (Hkeep : _shifts (snd (correctIndex st objDict)) = _shifts objDict /\
                    _angles (snd (correctIndex st objDict)) = _angles objDict).
    { destruct st as [fileName a]. unfold correctIndex.
      destruct (negb (String.eqb fileName (_filename objDict))); split; reflexivity. }
    destruct (correctIndex st objDict) as [st' objDict']. cbn [fst snd] in *.
    destruct (IH st') as [Herr Hmsgs].
    destruct (writeSetOfParticles_loop false path suffix (Some ALIGN_NONE) st' parts)
      as [events err]. cbn [fst snd] in *.
    split; [exact Herr |]. constructor; [| exact Hmsgs].
    exists objDict'. destruct Hkeep as [K1 K2]. repeat split; congruence.
  - exfalso. revert E. unfold particleDict. rewrite bind_Ok.
    rewrite bool_decide_eq_true_2 by reflexivity. cbn [negb].
    rewrite !bind_Ok. discriminate.
Qed.

(** X15. When the alignment type is ALIGN_NONE and the first particle has no
    coordinate, [writeSetOfParticles] on input that is not hdf never raises:
    no transform and no coordinate is read, one message is sent per particle,
    and the shifts and angles of each message are those of the dictionary of
    its particle, with nothing computed. *)
Theorem writeSetOfParticles_without_alignment `{ParticleSetHost} `{Transformations}
    (first : Particle) (rest : list Particle) (path suffix : string) :
  inputIsHdf first = false ->
  getCoordinate first = None ->
  snd (writeSetOfParticles (first :: rest) path suffix (Some ALIGN_NONE)) = None /\
  Forall2 carries_no_alignment (iterParticlesByMic (first :: rest))
    (fst (writeSetOfParticles (first :: rest) path suffix (Some ALIGN_NONE))).
Proof.
  intros Hext Hcoord. unfold writeSetOfParticles. rewrite Hext, Hcoord.
  apply writeSetOfParticles_loop_no_alignment.
Qed.

Lemma writeSetOfParticles_without_alignment_witness :
  snd (@writeSetOfParticles plain_set_host translation_lib
         (concat two_stacks) "particles" "" (Some "None")) = None /\
  Forall2 carries_no_alignment (concat two_stacks)
    (fst (@writeSetOfParticles plain_set_host translation_lib
            (concat two_stacks) "particles" "" (Some "None"))).
Proof.
  exact (@writeSetOfParticles_without_alignment plain_set_host translation_lib
           (plain_particle "a.mrcs" 1) (tl (concat two_stacks))
           "particles" "" eq_refl eq_refl).
Defined.

(** ** The transform converter: the other direction, and alignment rows *)

Lemma matrixFromGeometry_assembled `{Transformations} shifts angles inverse :
  matrixFromGeometry shifts angles inverse =
  if inverse then inv (assembled_matrix shifts angles true)
  else Ok (assembled_matrix shifts angles false).
Proof.
  unfold matrixFromGeometry, assembled_matrix.
  destruct (vneg (vmap deg2rad angles)) as [[a0 a1] a2].
  destruct inverse; reflexivity.
Qed.

Lemma column3_set_column3 M v : column3 (set_column3 M v) = v.
Proof. destruct v as [[x y] z]. reflexivity. Qed.

Lemma angles_recovered a :
  vneg (vmap rad2deg (vneg (vmap deg2rad a))) = a.
Proof.
  destruct a as [[x y] z]. unfold vneg, vmap.
  rewrite !rad2deg_opp, !deg2rad_rad2deg.
  f_equal; [f_equal |]; lra.
Qed.

(** X16. The other round trip, in exact arithmetic.  Let [B] be the matrix
    assembled from the shifts and angles.  If the library reads the
    translation of [B] from its last column and finds in [B] the Euler angles
    it was built from, and (flag set) inverting the inverse of [B] gives [B]
    back, then [geometryFromMatrix] applied to
    [matrixFromGeometry shifts angles flag], with the same flag, returns the
    shifts and the angles. *)
Theorem matrix_round_trip `{Transformations} (shifts angles : vec3) (inverse : bool) :
  translation_from_matrix (assembled_matrix shifts angles inverse) =
    column3 (assembled_matrix shifts angles inverse) ->
  euler_from_matrix (assembled_matrix shifts angles inverse) "szyz" =
    vneg (vmap deg2rad angles) ->
  (inverse = true ->
   exists X, inv (assembled_matrix shifts angles true) = Ok X /\
             inv X = Ok (assembled_matrix shifts angles true)) ->
  (M ← matrixFromGeometry shifts angles inverse; geometryFromMatrix M inverse) =
    Ok (shifts, angles).
Proof.
  intros Htr Heul Hinv. rewrite matrixFromGeometry_assembled.
  assert (Hcol : column3 (assembled_matrix shifts angles inverse) =
                 if inverse then vneg shifts else shifts).
  { unfold assembled_matrix. destruct (vneg (vmap deg2rad angles)) as [[a0 a1] a2].
    apply column3_set_column3. }
  destruct inverse.
  - destruct (Hinv eq_refl) as (X & HX & HB).
    rewrite HX, bind_Ok. unfold geometryFromMatrix. rewrite HB, !bind_Ok.
    cbn [fst snd]. rewrite Htr, Hcol, Heul, vneg_involutive, angles_recovered.
    reflexivity.
  - rewrite bind_Ok. unfold geometryFromMatrix. rewrite !bind_Ok.
    cbn [fst snd]. rewrite Htr, Hcol, Heul, angles_recovered. reflexivity.
Qed.

Lemma matrix_round_trip_witness :
  (M ← @matrixFromGeometry translation_lib (1%R, 2%R, 3%R) (0%R, 0%R, 0%R) true;
   @geometryFromMatrix translation_lib M true) =
  Ok ((1%R, 2%R, 3%R), (0%R, 0%R, 0%R)).
Proof.
  apply (@matrix_round_trip translation_lib (1%R, 2%R, 3%R) (0%R, 0%R, 0%R) true).
  - reflexivity.
  - cbn. unfold deg2rad. f_equal; [f_equal |]; lra.
  - intros _. eexists. split; [reflexivity |].
    cbn. unfold identity4. f_equal. f_equal; lra.
Defined.

(** X17. [rowToAlignment] reads five values: with fewer it raises
    IndexError, and values after the fifth are ignored. *)
Theorem rowToAlignment_five_values `{Transformations} `{AlignmentTypes}
    (alignmentList : list R) (alignType : string) :
  ((length alignmentList < 5)%nat ->
   rowToAlignment alignmentList alignType = Raise IndexError) /\
  rowToAlignment (firstn 5 alignmentList) alignType =
  rowToAlignment alignmentList alignType.
Proof.
  split.
  - intros Hlen. unfold rowToAlignment, list_item.
    destruct alignmentList as [| v0 [| v1 [| v2 [| v3 [| v4 l]]]]];
      try reflexivity.
    cbn [length] in Hlen. lia.
  - unfold rowToAlignment, list_item.
    destruct alignmentList as [| v0 [| v1 [| v2 [| v3 [| v4 l]]]]]; reflexivity.
Qed.

Lemma rowToAlignment_five_values_witness :
  @rowToAlignment translation_lib proj_types [0%R; 0%R; 0%R; 1%R] "Projection" =
  Raise IndexError.
Proof.
  apply (proj1 (@rowToAlignment_five_values translation_lib proj_types
                  [0%R; 0%R; 0%R; 1%R] "Projection")).
  cbn. lia.
Defined.

(** X18. For projections the row written by [alignmentToRow] is read back by
    [rowToAlignment]: if [alignmentToRow] of a matrix [M] gives shifts
    (sx, sy, 0) and angles (a0, a1, a2), then reading the row
    [a0, a1, a2, sx, sy] with ALIGN_PROJ returns [M], under the contracts of
    the library at the inverse [D] of [M] (last row [0, 0, 0, 1],
    translation in the last column, rotation rebuilt from its Euler angles,
    the inverse of [D] is [M]). *)
Theorem rowToAlignment_alignmentToRow `{Transformations} `{AlignmentTypes}
    (M D : mat4) (sx sy a0 a1 a2 : R) :
  inv M = Ok D -> inv D = Ok M ->
  affine_last_row D ->
  translation_from_matrix D = column3 D ->
  euler_contract_at D ->
  alignmentToRow M = Ok ((sx, sy, 0%R), (a0, a1, a2)) ->
  rowToAlignment [a0; a1; a2; sx; sy] ALIGN_PROJ = Ok M.
Proof.
  intros HMD HDM Hrow Htr Heul Hto.
  unfold alignmentToRow, geometryFromMatrix in Hto.
  rewrite HMD, !bind_Ok in Hto. cbn [fst snd] in Hto.
  injection Hto as Hshifts Hangles.
  unfold rowToAlignment, list_item. cbn [nth_error]. rewrite !bind_Ok.
  rewrite String.eqb_refl.
  unfold matrixFromGeometry. rewrite <- Hshifts, <- Hangles.
  rewrite radAngles_recovered, vneg_involutive.
  unfold euler_contract_at in Heul.
  destruct (euler_from_matrix D "szyz") as [[e0 e1] e2].
  destruct Heul as [Hblock Hlast].
  rewrite Htr, (set_column3_rebuild _ _ Hblock Hlast Hrow). exact HDM.
Qed.

Lemma rowToAlignment_alignmentToRow_witness :
  @rowToAlignment translation_lib proj_types
    [(- (0 * (180 / PI)))%R; (- (0 * (180 / PI)))%R; (- (0 * (180 / PI)))%R; 1%R; 2%R]
    "Projection" = Ok shift_1_2_0.
Proof.
  apply (@rowToAlignment_alignmentToRow translation_lib proj_types shift_1_2_0
           (set_column3 shift_1_2_0 (vneg (column3 shift_1_2_0)))).
  - reflexivity.
  - cbn. unfold shift_1_2_0, identity4. cbn. f_equal. f_equal; lra.
  - repeat split.
  - reflexivity.
  - repeat split.
  - cbn. unfold rad2deg. repeat (lra || f_equal).
Defined.

(** ** The parameters of the last iteration: which file, which entries *)

Lemma greatest_of_sorted (paths : list string) (x : string) :
  last (merge_sort String.le paths) = Some x ->
  x ∈ paths /\ forall p, p ∈ paths -> String.le p x.
Proof.
  intros Hlast. apply last_Some in Hlast as [l' Hl'].
  pose proof (merge_sort_Permutation String.le paths) as Hperm.
  pose proof (StronglySorted_merge_sort String.le paths) as Hsorted.
  rewrite Hl' in Hperm, Hsorted. split.
  - rewrite <- Hperm. apply elem_of_app. right. apply list_elem_of_singleton.
    reflexivity.
  - intros p Hp. rewrite <- Hperm in Hp. apply elem_of_app in Hp as [Hp | Hp].
    + apply (StronglySorted_app_1_elem_of String.le l' [x] p x Hsorted Hp).
      apply list_elem_of_singleton. reflexivity.
    + apply list_elem_of_singleton in Hp. subst p. reflexivity.
Qed.

(** X19. With no parameters file the function raises 'Particle params files
    not found'; otherwise it reads one of the files found, the greatest in
    the order of strings, and no other. *)
Theorem getLastParticlesParams_reads_greatest `{Host} `{GlobHost}
    (directory : string) :
  let paths := glob (os_path_join directory "particle_parms_*.json") in
  (paths = [] ->
   getLastParticlesParams directory =
   Raise (Exception "Particle params files not found")) /\
  (paths <> [] ->
   exists lastPath,
     lastPath ∈ paths /\
     (forall p, p ∈ paths -> String.le p lastPath) /\
     getLastParticlesParams directory =
     (particlesParams ← loadFile lastPath;
      items ← py_items particlesParams;
      particlesParams_loop items ∅)).
Proof.
  cbv zeta. split.
  - intros Hnil. unfold getLastParticlesParams. rewrite Hnil. reflexivity.
  - intros Hne. unfold getLastParticlesParams.
    destruct (last (merge_sort String.le
                (glob (os_path_join directory "particle_parms_*.json"))))
      as [lastPath |] eqn:Hlast.
    + exists lastPath. destruct (greatest_of_sorted _ _ Hlast) as [Hin Hmax].
      repeat split; assumption.
    + exfalso. apply last_None in Hlast.
      apply Hne. apply Permutation_nil_r.
      rewrite <- Hlast. symmetry. apply merge_sort_Permutation.
Qed.

Lemma getLastParticlesParams_reads_greatest_witness :
  exists lastPath,
    lastPath ∈ ["spt/particle_parms_02.json"; "spt/particle_parms_01.json"] /\
    (forall p, p ∈ ["spt/particle_parms_02.json"; "spt/particle_parms_01.json"] ->
               String.le p lastPath) /\
    @getLastParticlesParams (files_host parms_files)
       (glob_host ["spt/particle_parms_02.json"; "spt/particle_parms_01.json"]) "spt" =
    (particlesParams ← @loadFile (files_host parms_files) lastPath;
     items ← py_items particlesParams;
     particlesParams_loop items ∅).
Proof.
  apply (proj2 (@getLastParticlesParams_reads_greatest (files_host parms_files)
                  (glob_host ["spt/particle_parms_02.json"; "spt/particle_parms_01.json"])
                  "spt")).
  discriminate.
Defined.

Lemma particlesParams_loop_accepted items : forall output m,
  map_Forall (fun _ p => accepted p) output ->
  particlesParams_loop items output = Ok m ->
  map_Forall (fun _ p => accepted p) m.
Proof.
  induction items as [| [key values] items IH]; intros output m Hout.
  - cbn. intros [= <-]. exact Hout.
  - cbn [particlesParams_loop].
    destruct (search_index key) as [group1 |]; [| apply IH; exact Hout].
    destruct (py_int group1) as [particleIndex | e]; [rewrite bind_Ok | discriminate].
    destruct (py_get values "coverage" JNull) as [c | e]; [rewrite bind_Ok | discriminate].
    destruct (py_get values "score" JNull) as [s | e]; [rewrite bind_Ok | discriminate].
    destruct (py_get values "xform.align3d" (JObj [])) as [x | e];
      [rewrite bind_Ok | discriminate].
    destruct (py_get x "matrix" JNull) as [a | e]; [rewrite bind_Ok | discriminate].
    destruct (truthy c && truthy s && truthy a) eqn:Hacc; [| apply IH; exact Hout].
    apply IH. apply map_Forall_insert_2; [| exact Hout].
    apply andb_true_iff in Hacc as [Hcs Ha].
    apply andb_true_iff in Hcs as [Hc Hs].
    repeat split; assumption.
Qed.

(** X20. Every entry of the returned mapping has a coverage, a score and an
    alignment matrix that are all true in Python's sense: none is missing,
    null, zero or empty. *)
Theorem getLastParticlesParams_all_accepted `{Host} `{GlobHost}
    (directory : string) (params : gmap Z ParticleParams) :
  getLastParticlesParams directory = Ok params ->
  map_Forall (fun _ p => accepted p) params.
Proof.
  unfold getLastParticlesParams.
  destruct (last _) as [lastPath |]; [| discriminate].
  destruct (loadFile lastPath) as [pp | e]; [rewrite bind_Ok | discriminate].
  destruct (py_items pp) as [items | e]; [rewrite bind_Ok | discriminate].
  apply particlesParams_loop_accepted. apply map_Forall_empty.
Qed.

Lemma getLastParticlesParams_all_accepted_witness :
  map_Forall (fun _ p => accepted p)
    (<[7 := {| coverage := JInt 1; score := JInt (-2);
               alignMatrix := JArr [JInt 1; JInt 0; JInt 0; JInt 5;
                                    JInt 0; JInt 1; JInt 0; JInt 6;
                                    JInt 0; JInt 0; JInt 1; JInt 7] |}]>
       (∅ : gmap Z ParticleParams)).
Proof.
  exact (@getLastParticlesParams_all_accepted (files_host int_parms_files)
           (glob_host ["spt/particle_parms_03.json"]) "spt" _ eq_refl).
Defined.

Lemma contains_char_In c s :
  In c (list_ascii_of_string s) -> contains_char c s = true.
Proof.
  induction s as [| x s IH]; cbn [list_ascii_of_string contains_char In].
  - intros [].
  - intros [-> | Hin].
    + rewrite Ascii.eqb_refl. reflexivity.
    + rewrite (IH Hin). apply orb_true_r.
Qed.

Lemma search_index_no_paren key :
  contains_char ")" key = false -> search_index key = None.
Proof.
  intros Hno. unfold search_index.
  assert (Hnot : ~ In ")"%char (rev (list_ascii_of_string key))).
  { intros Hin. apply in_rev in Hin. apply contains_char_In in Hin. congruence. }
  destruct (rev (list_ascii_of_string key)) as [| c before]; [reflexivity |].
  destruct (Ascii.eqb c "010") eqn:Enl.
  - apply Ascii.eqb_eq in Enl. subst c.
    destruct before as [| c' before']; [reflexivity |].
    destruct (Ascii.eqb c' ")") eqn:Ec.
    + apply Ascii.eqb_eq in Ec. subst c'. exfalso. apply Hnot. right. left. reflexivity.
    + destruct c' as [b0 b1 b2 b3 b4 b5 b6 b7];
        destruct b0, b1, b2, b3, b4, b5, b6, b7; try reflexivity; discriminate Ec.
  - destruct (Ascii.eqb c ")") eqn:Ec.
    + apply Ascii.eqb_eq in Ec. subst c. exfalso. apply Hnot. left. reflexivity.
    + destruct c as [b0 b1 b2 b3 b4 b5 b6 b7];
        destruct b0, b1, b2, b3, b4, b5, b6, b7; try reflexivity;
        try discriminate Ec; discriminate Enl.
Qed.

Lemma particlesParams_loop_app l1 : forall l2 output,
  particlesParams_loop (l1 ++ l2) output =
  (m ← particlesParams_loop l1 output; particlesParams_loop l2 m).
Proof.
  induction l1 as [| [key values] l1 IH]; intros l2 output; [reflexivity |].
  cbn [app particlesParams_loop].
  destruct (search_index key) as [group1 |]; [| apply IH].
  destruct (py_int group1) as [particleIndex | e]; [rewrite !bind_Ok | reflexivity].
  destruct (py_get values "coverage" JNull) as [c | e]; [rewrite !bind_Ok | reflexivity].
  destruct (py_get values "score" JNull) as [s | e]; [rewrite !bind_Ok | reflexivity].
  destruct (py_get values "xform.align3d" (JObj [])) as [x | e];
    [rewrite !bind_Ok | reflexivity].
  destruct (py_get x "matrix" JNull) as [a | e]; [rewrite !bind_Ok | reflexivity].
  destruct (truthy c && truthy s && truthy a); apply IH.
Qed.

(** X21. An entry whose key holds no closing parenthesis is skipped whatever
    its value is, even a value that is not a dict: the result is the one
    obtained from the file without that entry. *)
Theorem getLastParticlesParams_skips_other_keys `{Host} `{GlobHost}
    (directory lastPath : string) before key (values : json) after :
  last (merge_sort String.le (glob (os_path_join directory "particle_parms_*.json")))
    = Some lastPath ->
  loadFile lastPath = Ok (JObj (before ++ (key, values) :: after)) ->
  contains_char ")" key = false ->
  getLastParticlesParams directory = particlesParams_loop (before ++ after) ∅.
Proof.
  intros Hlast Hload Hkey.
  unfold getLastParticlesParams. rewrite Hlast, Hload, bind_Ok.
  cbn [py_items]. rewrite bind_Ok.
  rewrite !particlesParams_loop_app.
  destruct (particlesParams_loop before ∅) as [m |]; [rewrite !bind_Ok | reflexivity].
  cbn [particlesParams_loop]. rewrite (search_index_no_paren key Hkey). reflexivity.
Qed.

Lemma getLastParticlesParams_skips_other_keys_witness :
  @getLastParticlesParams (files_host comment_parms_files)
     (glob_host ["spt/particle_parms_04.json"]) "spt" =
  particlesParams_loop ([] ++ []) ∅.
Proof.
  exact (@getLastParticlesParams_skips_other_keys (files_host comment_parms_files)
           (glob_host ["spt/particle_parms_04.json"]) "spt"
           "spt/particle_parms_04.json" [] "comment" (JStr "no particle") []
           eq_refl eq_refl eq_refl).
Defined.

Lemma list_ascii_append a b :
  list_ascii_of_string (a ++ b) = list_ascii_of_string a ++ list_ascii_of_string b.
Proof.
  induction a as [| x a IH]; [reflexivity |].
  change (String x a ++ b)%string with (String x (a ++ b)%string).
  cbn [list_ascii_of_string app]. rewrite IH. reflexivity.
Qed.

Lemma numeral_digits digits :
  Forall (fun d => (d < 10)%nat) digits ->
  forallb is_digit (list_ascii_of_string (numeral digits)) = true.
Proof.
  induction 1 as [| d digits Hd _ IH]; [reflexivity |].
  cbn [numeral fold_right list_ascii_of_string forallb].
  unfold is_digit at 1. rewrite (digit_of_digit_char d Hd). exact IH.
Qed.

Lemma leading_digits_app run tail :
  forallb is_digit run = true ->
  (tail = [] \/ exists c t, tail = c :: t /\ is_digit c = false) ->
  leading_digits (run ++ tail) = run.
Proof.
  intros Hrun Htail. induction run as [| c run IH].
  - cbn [app]. destruct Htail as [-> | (c & t & -> & Hc)]; [reflexivity |].
    cbn [leading_digits]. rewrite Hc. reflexivity.
  - cbn [forallb] in Hrun. apply andb_true_iff in Hrun as [Hc Hrun].
    cbn [app leading_digits]. rewrite Hc, (IH Hrun). reflexivity.
Qed.

(** The key that EMAN writes for particle N: anything that does not end with
    a digit, the decimal numeral of N, and a closing parenthesis. *)
Lemma search_index_numeral pre digits :
  (pre = EmptyString \/
   exists p c, pre = (p ++ String c EmptyString)%string /\ is_digit c = false) ->
  digits <> [] -> Forall (fun d => (d < 10)%nat) digits ->
  search_index (pre ++ numeral digits ++ ")") = Some (numeral digits).
Proof.
  intros Hpre Hne Hdig. unfold search_index.
  rewrite !list_ascii_append, !rev_app_distr. cbn [list_ascii_of_string rev app].
  remember (rev (list_ascii_of_string (numeral digits))) as run eqn:Erun.
  assert (Hrun : forallb is_digit run = true).
  { rewrite Erun, forallb_rev. apply numeral_digits. exact Hdig. }
  assert (Htail : rev (list_ascii_of_string pre) = [] \/
                  exists c t, rev (list_ascii_of_string pre) = c :: t /\
                              is_digit c = false).
  { destruct Hpre as [-> | (p & c & -> & Hc)]; [left; reflexivity |].
    right. exists c, (rev (list_ascii_of_string p)).
    rewrite list_ascii_append, rev_app_distr. split; [reflexivity | exact Hc]. }
  rewrite (leading_digits_app run _ Hrun Htail).
  destruct run as [| d run'].
  - exfalso. apply (f_equal (@length ascii)) in Erun.
    rewrite length_rev in Erun. destruct digits; [congruence | discriminate Erun].
  - change (rev run' ++ [d]) with (rev (d :: run')).
    rewrite Erun, rev_involutive, string_of_list_ascii_of_string. reflexivity.
Qed.

(** X22. The entries are taken in order and a later entry replaces an earlier
    one: when the last entry of the file has the key of particle N and a true
    coverage, score and matrix, the result maps N to these three values,
    whatever the entries before it gave for N. *)
Theorem getLastParticlesParams_last_entry `{Host} `{GlobHost}
    (directory lastPath : string) before pre digits v xform c s a m0 :
  last (merge_sort String.le (glob (os_path_join directory "particle_parms_*.json")))
    = Some lastPath ->
  loadFile lastPath =
    Ok (JObj (before ++ [((pre ++ numeral digits ++ ")")%string, JObj v)])) ->
  particlesParams_loop before ∅ = Ok m0 ->
  (pre = EmptyString \/
   exists p ch, pre = (p ++ String ch EmptyString)%string /\ is_digit ch = false) ->
  digits <> [] -> Forall (fun d => (d < 10)%nat) digits ->
  dict_get v "coverage" = Some c -> truthy c = true ->
  dict_get v "score" = Some s -> truthy s = true ->
  dict_get v "xform.align3d" = Some (JObj xform) ->
  dict_get xform "matrix" = Some a -> truthy a = true ->
  exists params,
    getLastParticlesParams directory = Ok params /\
    params = <[numeral_value digits :=
                 {| coverage := c; score := s; alignMatrix := a |}]> m0 /\
    params !! numeral_value digits =
      Some {| coverage := c; score := s; alignMatrix := a |}.
Proof.
  intros Hlast Hload Hbefore Hpre Hne Hdig Hc Tc Hs Ts Hx Ha Ta.
  eexists. split; [| split; [reflexivity | apply lookup_insert_eq]].
  unfold getLastParticlesParams. rewrite Hlast, Hload, bind_Ok.
  cbn [py_items]. rewrite bind_Ok.
  rewrite particlesParams_loop_app, Hbefore, bind_Ok.
  cbn [particlesParams_loop].
  rewrite (search_index_numeral pre digits Hpre Hne Hdig).
  rewrite (py_int_numeral digits Hne Hdig), bind_Ok.
  cbn [py_get]. rewrite Hc, Hs, Hx, !bind_Ok. cbn [py_get]. rewrite Ha, bind_Ok.
  rewrite Tc, Ts, Ta. reflexivity.
Qed.

Lemma getLastParticlesParams_last_entry_witness :
  exists params,
    @getLastParticlesParams (files_host one_entry_files)
       (glob_host ["spt/particle_parms_05.json"]) "spt" = Ok params /\
    params = <[numeral_value [1%nat; 2%nat] :=
                 {| coverage := JInt 1; score := JInt (-2);
                    alignMatrix := int_matrix |}]> ∅ /\
    params !! numeral_value [1%nat; 2%nat] =
      Some {| coverage := JInt 1; score := JInt (-2); alignMatrix := int_matrix |}.
Proof.
  apply (@getLastParticlesParams_last_entry (files_host one_entry_files)
           (glob_host ["spt/particle_parms_05.json"]) "spt"
           "spt/particle_parms_05.json" [] "('particles/a.hdf', " [1%nat; 2%nat]
           [("coverage", JInt 1); ("score", JInt (-2));
            ("xform.align3d", JObj [("matrix", int_matrix)])]
           [("matrix", int_matrix)] (JInt 1) (JInt (-2)) int_matrix ∅
           eq_refl eq_refl eq_refl).
  - right. exists "('particles/a.hdf',"%string, " "%char. split; reflexivity.
  - discriminate.
  - repeat constructor.
  - reflexivity.
  - reflexivity.
  - reflexivity.
  - reflexivity.
  - reflexivity.
  - reflexivity.
  - reflexivity.
Defined.

(** ** From the parameters to the subtomograms *)

Lemma key_index_Some key group1 z :
  search_index key = Some group1 -> py_int group1 = Ok z -> key_index key = Some z.
Proof. intros Hs Hi. unfold key_index. rewrite Hs, Hi. reflexivity. Qed.

Lemma particlesParams_loop_absent items (i : Z) : forall output m,
  (forall key values, In (key, values) items -> key_index key = Some i -> dropped values) ->
  output !! i = None ->
  particlesParams_loop items output = Ok m ->
  m !! i = None.
Proof.
  induction items as [| [key values] items IH]; intros output m Hdrop Hout.
  - cbn. intros [= <-]. exact Hout.
  - assert (Hrest : forall key values, In (key, values) items ->
                                       key_index key = Some i -> dropped values).
    { intros k v Hin. apply Hdrop. right. exact Hin. }
    destruct (key_index key) as [z |] eqn:Hkey.
    + destruct (Z.eq_dec z i) as [-> | Hne].
      * destruct (Hdrop key values (or_introl eq_refl) Hkey) as (v & -> & Hdict & Hcase).
        rewrite (particlesParams_loop_omits key v items output Hdict Hcase).
        apply IH; assumption.
      * cbn [particlesParams_loop]. unfold key_index in Hkey.
        destruct (search_index key) as [group1 |]; [| discriminate].
        destruct (py_int group1) as [particleIndex | e]; [| discriminate].
        injection Hkey as ->. rewrite bind_Ok.
        destruct (py_get values "coverage" JNull) as [c | e];
          [rewrite bind_Ok | discriminate].
        destruct (py_get values "score" JNull) as [s | e];
          [rewrite bind_Ok | discriminate].
        destruct (py_get values "xform.align3d" (JObj [])) as [x | e];
          [rewrite bind_Ok | discriminate].
        destruct (py_get x "matrix" JNull) as [a | e];
          [rewrite bind_Ok | discriminate].
        destruct (truthy c && truthy s && truthy a).
        -- apply IH; [exact Hrest |]. rewrite lookup_insert_ne by exact Hne.
           exact Hout.
        -- apply IH; assumption.
    + cbn [particlesParams_loop]. unfold key_index in Hkey.
      destruct (search_index key) as [group1 |] eqn:Hs; [| apply IH; assumption].
      destruct (search_index_int key group1 Hs) as [z Hz].
      rewrite Hz in Hkey. discriminate Hkey.
Qed.

(** X23. Dropped entries surface later: when every entry of the last
    parameters file for particle N is dropped by the filter (coverage or
    score 0 or missing, matrix missing or empty), the callback of
    [updateSetOfSubTomograms] raises 'Could not get params for particle N'
    for that particle. *)
Theorem updateSubTomogram_after_dropped_entry `{Host} `{GlobHost} `{MatrixHost}
    (directory lastPath : string) items (params : gmap Z ParticleParams)
    (samplingRate : R) (subTomogram : SubTomogram) (index : Z) :
  last (merge_sort String.le (glob (os_path_join directory "particle_parms_*.json")))
    = Some lastPath ->
  loadFile lastPath = Ok (JObj items) ->
  (forall key values,
     In (key, values) items -> key_index key = Some index -> dropped values) ->
  getLastParticlesParams directory = Ok params ->
  updateSubTomogram params samplingRate subTomogram index =
  Raise (Exception (no_params_message index)).
Proof.
  intros Hlast Hload Hdrop Hparams.
  unfold getLastParticlesParams in Hparams.
  rewrite Hlast, Hload, bind_Ok in Hparams. cbn [py_items] in Hparams.
  rewrite bind_Ok in Hparams.
  pose proof (particlesParams_loop_absent items index ∅ params Hdrop
                (lookup_empty index) Hparams) as Habsent.
  unfold updateSubTomogram. rewrite Habsent. reflexivity.
Qed.

Lemma updateSubTomogram_after_dropped_entry_witness :
  @updateSubTomogram (files_host int_parms_files) matrix_host
    (<[7 := {| coverage := JInt 1; score := JInt (-2); alignMatrix := int_matrix |}]> ∅)
    1 emptySubTomogram 8 =
  Raise (Exception (no_params_message 8)).
Proof.
  apply (@updateSubTomogram_after_dropped_entry (files_host int_parms_files)
           (glob_host ["spt/particle_parms_03.json"]) matrix_host
           "spt" "spt/particle_parms_03.json" _ _ 1%R emptySubTomogram 8
           eq_refl eq_refl).
  - intros key values [Hin | [Hin | []]] Hkey; injection Hin as <- <-.
    + discriminate Hkey.
    + eexists. split; [reflexivity |]. split.
      * right. eexists. reflexivity.
      * left. exact zm_int.
  - reflexivity.
Defined.

Lemma twelve_numbers (l : list json) (a0 a1 a2 a3 a4 a5 a6 a7 a8 a9 a10 a11 : R) :
  mapM number_value (firstn 12 l) =
    Some [a0; a1; a2; a3; a4; a5; a6; a7; a8; a9; a10; a11] ->
  exists x0 x1 x2 x3 x4 x5 x6 x7 x8 x9 x10 x11 rest,
    l = x0 :: x1 :: x2 :: x3 :: x4 :: x5 :: x6 :: x7 :: x8 :: x9 :: x10 :: x11 :: rest /\
    map number_value [x0; x1; x2; x3; x4; x5; x6; x7; x8; x9; x10; x11] =
    map Some [a0; a1; a2; a3; a4; a5; a6; a7; a8; a9; a10; a11].
Proof.
  intros Hnum. apply mapM_Some in Hnum. apply Forall2_length in Hnum as Hlen.
  do 12 (destruct l as [| ? l]; [discriminate Hlen |]).
  cbn [firstn] in Hnum.
  do 13 eexists. split; [reflexivity |].
  cbn [map].
  repeat (apply Forall2_cons in Hnum as [-> Hnum]). reflexivity.
Qed.

(** X24. When the parameters of the particle hold a coverage and a score that
    convert to floats, and an alignment matrix that is a list whose first
    twelve entries a0 ... a11 are numbers, the callback succeeds and sets the
    coverage, the score and the transform of rows [a0, a1, a2, a3 * s],
    [a4, a5, a6, a7 * s], [a8, a9, a10, a11 * s] and [0, 0, 0, 1], where s
    is the sampling rate. *)
Theorem updateSubTomogram_transform `{Host} `{MatrixHost}
    (particlesParams : gmap Z ParticleParams) (samplingRate : R)
    (subTomogram : SubTomogram) (index : Z) (particleParams : ParticleParams)
    (cov sc : R) (am : list json) (a0 a1 a2 a3 a4 a5 a6 a7 a8 a9 a10 a11 : R) :
  particlesParams !! index = Some particleParams ->
  py_float (coverage particleParams) = Ok cov ->
  py_float (score particleParams) = Ok sc ->
  alignMatrix particleParams = JArr am ->
  mapM number_value (firstn 12 am) =
    Some [a0; a1; a2; a3; a4; a5; a6; a7; a8; a9; a10; a11] ->
  updateSubTomogram particlesParams samplingRate subTomogram index =
  Ok {| st_coverage := Some cov;
        st_score := Some sc;
        st_transform :=
          Some (NumberMatrix (Mat4 a0 a1 a2 (a3 * samplingRate)
                                   a4 a5 a6 (a7 * samplingRate)
                                   a8 a9 a10 (a11 * samplingRate)
                                   0 0 0 1)) |}.
Proof.
  intros Hp Hcov Hsc Ham Hnum.
  destruct (twelve_numbers _ _ _ _ _ _ _ _ _ _ _ _ _ Hnum)
    as (x0 & x1 & x2 & x3 & x4 & x5 & x6 & x7 & x8 & x9 & x10 & x11 & rest & -> & Hx).
  injection Hx as E0 E1 E2 E3 E4 E5 E6 E7 E8 E9 E10 E11.
  unfold updateSubTomogram. rewrite Hp, Hcov, bind_Ok, Hsc, bind_Ok, Ham.
  unfold alignTransform, py_slice, number_row, times_float.
  cbn [Nat.sub skipn firstn mapM list_item nth_error].
  rewrite E0, E1, E2, E4, E5, E6, E8, E9, E10. cbn.
  rewrite E3. cbn. rewrite E7. cbn. rewrite E11. reflexivity.
Qed.

Lemma updateSubTomogram_transform_witness :
  @updateSubTomogram (files_host int_parms_files) matrix_host
    (<[7 := {| coverage := JInt 1; score := JInt (-2); alignMatrix := int_matrix |}]> ∅)
    2 emptySubTomogram 7 =
  Ok {| st_coverage := Some (IZR 1);
        st_score := Some (IZR (-2));
        st_transform :=
          Some (NumberMatrix (Mat4 (IZR 1) (IZR 0) (IZR 0) (IZR 5 * 2)
                                   (IZR 0) (IZR 1) (IZR 0) (IZR 6 * 2)
                                   (IZR 0) (IZR 0) (IZR 1) (IZR 7 * 2)
                                   0 0 0 1)) |}.
Proof.
  exact (@updateSubTomogram_transform (files_host int_parms_files) matrix_host
           (<[7 := {| coverage := JInt 1; score := JInt (-2);
                      alignMatrix := int_matrix |}]> ∅)
           2%R emptySubTomogram 7 _ _ _ _ _ _ _ _ _ _ _ _ _ _ _ _
           eq_refl eq_refl eq_refl eq_refl eq_refl).
Defined.

(** ** 3D coordinates: writing and reading back *)

(** X25. What [coordinates2json] writes is read back unchanged: each box of
    'boxes_3d' gives, through [readCoordinate3D], the position of the
    coordinate it was written from, in order, and the box size is found under
    'class_list', '0', 'boxsize'. *)
Theorem coordinates2json_read_back (pathInputCoor : string)
    (iterCoordinates : list Position3D) (getBoxSize : Z) (inputTomo : string) :
  exists boxes,
    getitem_key (snd (coordinates2json pathInputCoor iterCoordinates getBoxSize))
      "boxes_3d" = Ok (JArr boxes) /\
    map (fun box => readCoordinate3D box inputTomo) boxes =
    map (fun coor => Ok {| coord3_x := JInt (getX coor); coord3_y := JInt (getY coor);
                           coord3_z := JInt (getZ coor);
                           coord3_volume := inputTomo |})
        iterCoordinates /\
    (classes ← getitem_key (snd (coordinates2json pathInputCoor iterCoordinates getBoxSize))
                 "class_list";
     class0 ← getitem_key classes "0";
     getitem_key class0 "boxsize") = Ok (JInt getBoxSize).
Proof.
  eexists. split; [reflexivity |]. split; [| reflexivity].
  rewrite map_map. apply map_ext. intros coor. reflexivity.
Qed.

(** ** Classes and iterations of the 2D refinement *)

Lemma classesInfo_fold (count : nat) (classesPath : string) (k : Z) :
  fold_left (fun info classId => <[classId + 1 := (classId + 1, classesPath)]> info)
            (map Z.of_nat (seq 0 count)) (∅ : gmap Z (Z * string)) !! k =
  if decide (1 <= k <= Z.of_nat count) then Some (k, classesPath) else None.
Proof.
  induction count as [| count IH].
  - cbn. rewrite lookup_empty. destruct (decide _) as [Hk | Hk]; [lia | reflexivity].
  - rewrite seq_S, map_app, fold_left_app. cbn [map fold_left Nat.add].
    destruct (Z.eq_dec k (Z.of_nat count + 1)) as [-> | Hne].
    + rewrite lookup_insert_eq. clear IH.
      destruct (decide (1 <= Z.of_nat count + 1 <= Z.of_nat (S count))) as [Hk | Hk];
        [reflexivity | lia].
    + rewrite lookup_insert_ne by congruence. rewrite IH.
      destruct (decide (1 <= k <= Z.of_nat count)) as [Hk | Hk];
        destruct (decide (1 <= k <= Z.of_nat (S count))) as [Hk' | Hk'];
        try reflexivity; lia.
Qed.

(** X26. After [_execEmanProcess] the classes known are exactly those with
    ids 1 to numberOfClassAvg: [_updateClass] sets the location of the
    representative to (id, classes file) for these ids, and leaves every
    other class untouched. *)
Theorem updateClass_known_ids (numberOfClassAvg : Z) (classesPath : string)
    (item : Class2D) :
  _updateClass (classesInfo numberOfClassAvg classesPath) item =
  if decide (1 <= class_objId item <= numberOfClassAvg) then
    {| class_objId := class_objId item;
       representative_location := Some (class_objId item, classesPath) |}
  else item.
Proof.
  unfold _updateClass, classesInfo, py_range. rewrite classesInfo_fold.
  destruct (decide (1 <= class_objId item <= Z.of_nat (Z.to_nat numberOfClassAvg)))
    as [Hk | Hk];
    destruct (decide (1 <= class_objId item <= numberOfClassAvg)) as [Hk' | Hk'];
    try reflexivity; lia.
Qed.

Lemma digit_of_bounds c d : digit_of c = Some d -> 0 <= d <= 9.
Proof.
  unfold digit_of.
  destruct ((48 <=? nat_of_ascii c)%nat && (nat_of_ascii c <=? 57)%nat) eqn:E;
    [| discriminate].
  apply andb_true_iff in E as [E1 E2].
  apply Nat.leb_le in E1. apply Nat.leb_le in E2.
  intros [= <-]. lia.
Qed.

Lemma search_iteration_bounds f n : search_iteration f = Some n -> 0 <= n <= 99.
Proof.
  induction f as [| c rest IH]; [discriminate |].
  cbn [search_iteration].
  destruct (String.prefix "classes_" (String c rest)); [| exact IH].
  destruct (substring 8 2 (String c rest)) as [| d1 [| d2 [| d3 more]]]; try exact IH.
  destruct (digit_of d1) as [v1 |] eqn:E1; [| exact IH].
  destruct (digit_of d2) as [v2 |] eqn:E2; [| exact IH].
  intros [= <-].
  pose proof (digit_of_bounds _ _ E1). pose proof (digit_of_bounds _ _ E2). lia.
Qed.

Lemma first_or_last_ok (f0 : string) (files : list string) (index : Z) :
  index = 0 \/ index = -1 ->
  exists f, first_or_last (f0 :: files) index = Ok f.
Proof.
  intros [-> | ->]; unfold first_or_last.
  - exists f0. reflexivity.
  - replace (-1 <? 0) with true by reflexivity.
    replace (Z.of_nat (length (f0 :: files)) + -1) with (Z.of_nat (length files))
      by (cbn [length]; lia).
    replace (Z.of_nat (length files) <? 0) with false by (symmetry; apply Z.ltb_ge; lia).
    rewrite Nat2Z.id. unfold list_item.
    destruct (nth_error (f0 :: files) (length files)) as [f |] eqn:E.
    + exists f. reflexivity.
    + apply nth_error_None in E. cbn [length] in E. lia.
Qed.

(** X27. The iteration numbers never raise and stay in range: [_lastIter] is
    None when no classes file is found and otherwise None or a number from 0
    to 99, and [_firstIter] is always a number from 1 to 99 (1 when nothing
    is found, and also when the first file is iteration 0). *)
Theorem iteration_numbers_in_range `{ProtocolHost} (_iterTemplate : string) :
  (exists last_n,
     _lastIter _iterTemplate = Ok last_n /\
     (glob_sorted _iterTemplate = [] -> last_n = None) /\
     (forall n, last_n = Some n -> 0 <= n <= 99)) /\
  (exists first_n,
     _firstIter _iterTemplate = Ok first_n /\
     1 <= first_n <= 99 /\
     (glob_sorted _iterTemplate = [] -> first_n = 1)).
Proof.
  unfold _lastIter, _firstIter, _getIterNumber.
  destruct (glob_sorted _iterTemplate) as [| f0 files].
  - split.
    + exists None. split; [reflexivity |]. split; [reflexivity | discriminate].
    + exists 1. rewrite bind_Ok. split; [reflexivity |]. split; [lia | reflexivity].
  - split.
    + destruct (first_or_last_ok f0 files (-1) (or_intror eq_refl)) as [f Hf].
      rewrite Hf, bind_Ok. exists (search_iteration f).
      split; [reflexivity |]. split; [discriminate |].
      intros n Hn. apply (search_iteration_bounds f n Hn).
    + destruct (first_or_last_ok f0 files 0 (or_introl eq_refl)) as [f Hf].
      rewrite Hf, !bind_Ok.
      destruct (search_iteration f) as [k |] eqn:Ek.
      * pose proof (search_iteration_bounds f k Ek) as Hk.
        destruct (k =? 0) eqn:E0.
        -- exists 1. split; [reflexivity |]. split; [lia | discriminate].
        -- apply Z.eqb_neq in E0. exists k.
           split; [reflexivity |]. split; [lia | discriminate].
      * exists 1. split; [reflexivity |]. split; [lia | discriminate].
Qed.

Lemma iteration_numbers_in_range_witness :
  (exists last_n,
     @_lastIter two_iterations_host "extra/r2db_01/classes_??.hdf" = Ok last_n /\
     forall n, last_n = Some n -> 0 <= n <= 99) /\
  (exists first_n,
     @_firstIter two_iterations_host "extra/r2db_01/classes_??.hdf" = Ok first_n /\
     1 <= first_n <= 99).
Proof.
  destruct (@iteration_numbers_in_range two_iterations_host
              "extra/r2db_01/classes_??.hdf")
    as [[last_n [Hlast [_ Hrange]]] [first_n [Hfirst [Hbounds _]]]].
  split.
  - exists last_n. split; [exact Hlast | exact Hrange].
  - exists first_n. split; [exact Hfirst | exact Hbounds].
Defined.
